(** * VideoGenerator: scene renderer, animation clock, capture pipeline

    A shallow embedding of [src/components/VideoGenerator.tsx].

    Modelling conventions.
    - A JavaScript [number] is an exact rational ([Q]).  Every finite double
      is a rational; the rounding of arithmetic results, [NaN] and the
      infinities are not modelled, so statements that divide carry the
      hypothesis that the divisor is positive.
    - [Math.sin] is implementation-approximated in ECMAScript; it is a
      parameter of the renderer, constrained only by its range [-1, 1].
    - A JavaScript string is its list of UTF-16 code units.
    - Template literals that splice numbers into CSS text ([rgba(...)],
      [hsla(...)], [<n>px <family>]) are kept as structured values instead of
      rendered text.
    - React state setters and refs are fields of one [State] record, updated
      in program order; a callback built by [useCallback] reads the state
      values of the render that built it, which the model passes as explicit
      captured arguments. *)

From Stdlib Require Import ZArith QArith Qround Qabs Qminmax.
From Stdlib Require Import List Sorted String Ascii Bool Lia Lqa.
Import ListNotations.

Local Open Scope Q_scope.

(* ------------------------------------------------------------------ *)
(** ** JavaScript values *)

Module JS.

(** UTF-16 code units. *)
Definition jsstring := list N.

Definition lit (s : string) : jsstring :=
  List.map N_of_ascii (list_ascii_of_string s).

Definition str_eqb (a b : jsstring) : bool :=
  if list_eq_dec N.eq_dec a b then true else false.

(** Truthiness of a string: the empty string is the only falsy one. *)
Definition truthy (s : jsstring) : bool :=
  match s with [] => false | _ :: _ => true end.

(** [a || b] on strings. *)
Definition or_else (a b : jsstring) : jsstring :=
  if truthy a then a else b.

(** ECMAScript WhiteSpace and LineTerminator code points, the characters
    [String.prototype.trim] strips. *)
Definition is_ws (c : N) : bool :=
  (N.eqb c 9 || N.eqb c 10 || N.eqb c 11 || N.eqb c 12 || N.eqb c 13
   || N.eqb c 32 || N.eqb c 160 || N.eqb c 5760
   || (N.leb 8192 c && N.leb c 8202)
   || N.eqb c 8232 || N.eqb c 8233 || N.eqb c 8239 || N.eqb c 8287
   || N.eqb c 12288 || N.eqb c 65279)%bool.

Fixpoint trimStart (s : jsstring) : jsstring :=
  match s with
  | [] => []
  | c :: r => if is_ws c then trimStart r else s
  end.

Definition trimEnd (s : jsstring) : jsstring :=
  rev (trimStart (rev s)).

(** [String.prototype.trim]. *)
Definition trim (s : jsstring) : jsstring := trimEnd (trimStart s).

(** Empty or whitespace-only. *)
Definition blank (s : jsstring) : bool := forallb is_ws s.

(** [Math.floor], [Math.abs], [Math.min], [Math.max]. *)
Definition floor (x : Q) : Q := inject_Z (Qfloor x).
Definition abs (x : Q) : Q := Qabs x.
Definition min (x y : Q) : Q := Qmin x y.
Definition max (x y : Q) : Q := Qmax x y.

(** Round toward zero. *)
Definition trunc (x : Q) : Z :=
  if Qle_bool 0 x then Qfloor x else Qceiling x.

(** The [%] operator: the remainder has the sign of the dividend. *)
Definition rem (x y : Q) : Q := x - y * inject_Z (trunc (x / y)).

(** [Math.PI], the double nearest to pi. *)
Definition PI : Q := 884279719003555 # 281474976710656.

Definition lt (x y : Q) : bool := negb (Qle_bool y x).

End JS.

(* ------------------------------------------------------------------ *)
(** ** The 2D drawing context *)

Module Canvas.

Inductive Color :=
| Rgba (r g b a : Q)
| Hsla (h s l a : Q)
| Css (text : JS.jsstring).

Inductive Gradient :=
| Linear (x0 y0 x1 y1 : Q)
| Radial (x0 y0 r0 x1 y1 r1 : Q).

(** A gradient object: its geometry and the stops added so far. *)
Record GradientObj := {
  geometry : Gradient;
  stops : list (Q * Color)
}.

Inductive Style :=
| Solid (c : Color)
| Grad (g : GradientObj).

Record Font := { px : Q; family : JS.jsstring }.

(** Calls and property writes a caller performs on the context. *)
Inductive Cmd :=
| CreateLinearGradient (x0 y0 x1 y1 : Q)
| CreateRadialGradient (x0 y0 r0 x1 y1 r1 : Q)
| AddColorStop (offset : Q) (c : Color)
| SetFillStyle (s : Style)
| SetStrokeStyle (s : Style)
| SetFont (f : Font)
| SetTextAlign (a : JS.jsstring)
| SetShadowColor (c : Color)
| SetShadowBlur (b : Q)
| SetLineWidth (w : Q)
| FillRect (x y w h : Q)
| StrokeRect (x y w h : Q)
| BeginPath
| Arc (x y r a0 a1 : Q)
| Fill
| FillText (text : JS.jsstring) (x y : Q).

(** The context: its drawing state and the record of what was asked of
    it, oldest first. *)
Record Ctx := {
  fillStyle : Style;
  strokeStyle : Style;
  font : Font;
  textAlign : JS.jsstring;
  shadowColor : Color;
  shadowBlur : Q;
  lineWidth : Q;
  log : list Cmd
}.

(** A fresh context, with the defaults of the canvas API. *)
Definition fresh : Ctx := {|
  fillStyle := Solid (Css (JS.lit "#000000"));
  strokeStyle := Solid (Css (JS.lit "#000000"));
  font := {| px := 10; family := JS.lit "sans-serif" |};
  textAlign := JS.lit "start";
  shadowColor := Css (JS.lit "rgba(0, 0, 0, 0)");
  shadowBlur := 0;
  lineWidth := 1;
  log := []
|}.

(** Code that drives a context. *)
Definition M (A : Type) : Type := Ctx -> A * Ctx.

Definition ret {A} (a : A) : M A := fun c => (a, c).

Definition bind {A B} (m : M A) (k : A -> M B) : M B :=
  fun c => let (a, c') := m c in k a c'.

Definition emit (x : Cmd) (c : Ctx) : Ctx :=
  {| fillStyle := fillStyle c; strokeStyle := strokeStyle c;
     font := font c; textAlign := textAlign c;
     shadowColor := shadowColor c; shadowBlur := shadowBlur c;
     lineWidth := lineWidth c; log := log c ++ [x] |}.

Definition call (x : Cmd) : M unit := fun c => (tt, emit x c).

Definition createLinearGradient (x0 y0 x1 y1 : Q) : M GradientObj :=
  fun c => ({| geometry := Linear x0 y0 x1 y1; stops := [] |},
            emit (CreateLinearGradient x0 y0 x1 y1) c).

Definition createRadialGradient (x0 y0 r0 x1 y1 r1 : Q) : M GradientObj :=
  fun c => ({| geometry := Radial x0 y0 r0 x1 y1 r1; stops := [] |},
            emit (CreateRadialGradient x0 y0 r0 x1 y1 r1) c).

Definition addColorStop (g : GradientObj) (offset : Q) (col : Color)
  : M GradientObj :=
  fun c => ({| geometry := geometry g; stops := stops g ++ [(offset, col)] |},
            emit (AddColorStop offset col) c).

Definition set_fillStyle (s : Style) : M unit :=
  fun c => (tt, emit (SetFillStyle s)
    {| fillStyle := s; strokeStyle := strokeStyle c; font := font c;
       textAlign := textAlign c; shadowColor := shadowColor c;
       shadowBlur := shadowBlur c; lineWidth := lineWidth c;
       log := log c |}).

Definition set_strokeStyle (s : Style) : M unit :=
  fun c => (tt, emit (SetStrokeStyle s)
    {| fillStyle := fillStyle c; strokeStyle := s; font := font c;
       textAlign := textAlign c; shadowColor := shadowColor c;
       shadowBlur := shadowBlur c; lineWidth := lineWidth c;
       log := log c |}).

Definition set_font (f : Font) : M unit :=
  fun c => (tt, emit (SetFont f)
    {| fillStyle := fillStyle c; strokeStyle := strokeStyle c; font := f;
       textAlign := textAlign c; shadowColor := shadowColor c;
       shadowBlur := shadowBlur c; lineWidth := lineWidth c;
       log := log c |}).

Definition set_textAlign (a : JS.jsstring) : M unit :=
  fun c => (tt, emit (SetTextAlign a)
    {| fillStyle := fillStyle c; strokeStyle := strokeStyle c;
       font := font c; textAlign := a; shadowColor := shadowColor c;
       shadowBlur := shadowBlur c; lineWidth := lineWidth c;
       log := log c |}).

Definition set_shadowColor (col : Color) : M unit :=
  fun c => (tt, emit (SetShadowColor col)
    {| fillStyle := fillStyle c; strokeStyle := strokeStyle c;
       font := font c; textAlign := textAlign c; shadowColor := col;
       shadowBlur := shadowBlur c; lineWidth := lineWidth c;
       log := log c |}).

Definition set_shadowBlur (b : Q) : M unit :=
  fun c => (tt, emit (SetShadowBlur b)
    {| fillStyle := fillStyle c; strokeStyle := strokeStyle c;
       font := font c; textAlign := textAlign c;
       shadowColor := shadowColor c; shadowBlur := b;
       lineWidth := lineWidth c; log := log c |}).

Definition set_lineWidth (w : Q) : M unit :=
  fun c => (tt, emit (SetLineWidth w)
    {| fillStyle := fillStyle c; strokeStyle := strokeStyle c;
       font := font c; textAlign := textAlign c;
       shadowColor := shadowColor c; shadowBlur := shadowBlur c;
       lineWidth := w; log := log c |}).

Definition fillRect (x y w h : Q) : M unit := call (FillRect x y w h).
Definition strokeRect (x y w h : Q) : M unit := call (StrokeRect x y w h).
Definition beginPath : M unit := call BeginPath.
Definition arc (x y r a0 a1 : Q) : M unit := call (Arc x y r a0 a1).
Definition fill : M unit := call Fill.
Definition fillText (s : JS.jsstring) (x y : Q) : M unit :=
  call (FillText s x y).

(** [for (let i = lo; i < lo + n; i++) body(i)]. *)
Fixpoint for_ (n : nat) (lo : nat) (body : nat -> M unit) : M unit :=
  match n with
  | O => ret tt
  | S n' => bind (body lo) (fun _ => for_ n' (S lo) body)
  end.

(** [if (cond) body]. *)
Definition when (cond : bool) (body : M unit) : M unit :=
  if cond then body else ret tt.

(** What a piece of code asks of the context, started on [c]: the entries
    it adds to the log. *)
Definition issued {A} (m : M A) (c : Ctx) : list Cmd :=
  skipn (List.length (log c)) (log (snd (m c))).

End Canvas.

Declare Scope canvas_scope.
Delimit Scope canvas_scope with canvas.
Notation "x <- m ;; k" := (Canvas.bind m (fun x => k))
  (at level 61, m at next level, right associativity) : canvas_scope.
Notation "m ;; k" := (Canvas.bind m (fun _ => k))
  (at level 61, right associativity) : canvas_scope.

(* ------------------------------------------------------------------ *)
(** ** Scene renderer: [drawFrame] *)

Module Renderer.

Local Open Scope canvas_scope.
Import Canvas.

(** [RESOLUTION_MAP]. *)
Inductive ResolutionKey := R720p | R1080p | Square.

Definition RESOLUTION_MAP (k : ResolutionKey) : Q * Q :=
  match k with
  | R720p => (1280, 720)
  | R1080p => (1920, 1080)
  | Square => (1080, 1080)
  end.

(** The values [drawFrame] closes over. *)
Record Env := {
  bgStyle : JS.jsstring;
  width : Q;
  height : Q;
  prompt : JS.jsstring;
  subtitle : JS.jsstring
}.

Definition sans : JS.jsstring :=
  JS.lit "ui-sans-serif, system-ui, -apple-system".

Definition placeholder : JS.jsstring := JS.lit "Your animated title".

Section WithSin.

(** [Math.sin]. *)
Variable sin : Q -> Q.

Definition aurora (w h t : Q) : M unit :=
  g <- createLinearGradient 0 0 w h ;;
  let a := sin (t * 0.0006) * 0.5 + 0.5 in
  let b := sin (t * 0.0009 + 1.2) * 0.5 + 0.5 in
  let c := sin (t * 0.0007 + 2.7) * 0.5 + 0.5 in
  g <- addColorStop g 0 (Rgba (JS.floor (40 + 80 * a)) 80 255 0.9) ;;
  g <- addColorStop g 1 (Rgba 10 (JS.floor (40 + 140 * b)) 120 0.9) ;;
  set_fillStyle (Grad g) ;;
  fillRect 0 0 w h.

Definition rnd (seed : Q) : Q := JS.abs (sin (seed * 9999.91)).

(** One iteration of the particle loop. *)
Definition particle (w h t : Q) (i : nat) : M unit :=
  let s := inject_Z (Z.of_nat i) * 13.37 + t * 0.12 in
  let x := JS.rem (rnd s * w) w in
  let y := JS.rem (rnd (s + 42) * h) h in
  let r := 0.5 + rnd (s + 99) * 2.5 in
  let hue := JS.floor (200 + 55 * rnd (s + 7)) in
  set_fillStyle (Solid (Hsla hue 80 65 0.8)) ;;
  beginPath ;;
  arc x y r 0 (JS.PI * 2) ;;
  fill.

Definition particles (w h t : Q) : M unit :=
  set_fillStyle (Solid (Css (JS.lit "#030614"))) ;;
  fillRect 0 0 w h ;;
  for_ 300 0 (particle w h t).

Definition waves (w h t : Q) : M unit :=
  gradient <- createRadialGradient (w * 0.2) (h * 0.2) 50
                (w * 0.5) (h * 0.6) (JS.max w h) ;;
  let p := fun v : Q => sin (t * 0.0005 + v) * 0.5 + 0.5 in
  gradient <- addColorStop gradient 0 (Rgba 20 (80 + 100 * p 0) 255 0.8) ;;
  gradient <- addColorStop gradient 1 (Rgba 5 10 (60 + 120 * p 1.3) 1) ;;
  set_fillStyle (Grad gradient) ;;
  fillRect 0 0 w h.

Definition background (e : Env) (t : Q) : M unit :=
  if JS.str_eqb (bgStyle e) (JS.lit "Aurora") then
    aurora (width e) (height e) t
  else if JS.str_eqb (bgStyle e) (JS.lit "Particles") then
    particles (width e) (height e) t
  else
    waves (width e) (height e) t.

Definition overlay (e : Env) (t : Q) : M unit :=
  let title := JS.or_else (JS.trim (prompt e)) placeholder in
  let sub := JS.trim (subtitle e) in
  let centerX := width e / 2 in
  let centerY := height e / 2 in
  let wobble := sin (t * 0.003) * 6 in
  set_textAlign (JS.lit "center") ;;
  set_font {| px := JS.floor (JS.min (width e) (height e) * 0.07);
              family := sans |} ;;
  set_fillStyle (Solid (Css (JS.lit "#ffffff"))) ;;
  set_shadowColor (Css (JS.lit "rgba(0,0,0,0.5)")) ;;
  set_shadowBlur 20 ;;
  fillText title centerX (centerY + wobble) ;;
  when (JS.truthy sub)
    (set_font {| px := JS.floor (JS.min (width e) (height e) * 0.03);
                 family := sans |} ;;
     set_fillStyle (Solid (Css (JS.lit "#cfe3ff"))) ;;
     set_shadowBlur 10 ;;
     fillText sub centerX (centerY + 40 + wobble * 0.5)) ;;
  set_shadowBlur 0 ;;
  set_lineWidth 2 ;;
  set_strokeStyle (Solid (Css (JS.lit "rgba(255,255,255,0.12)"))) ;;
  strokeRect 12 12 (width e - 24) (height e - 24).

Definition drawFrame (e : Env) (t : Q) : M unit :=
  background e t ;;
  overlay e t.

End WithSin.

(** The arcs among a list of commands: centre and radius. *)
Definition arcs (l : list Cmd) : list (Q * Q * Q) :=
  flat_map (fun x => match x with
                     | Arc x y r _ _ => [(x, y, r)]
                     | _ => []
                     end) l.

(** The strings drawn by [fillText]. *)
Definition texts (l : list Cmd) : list JS.jsstring :=
  flat_map (fun x => match x with
                     | FillText s _ _ => [s]
                     | _ => []
                     end) l.

(** A rational stand-in for [Math.sin], for running the renderer: the
    cubic Taylor polynomial, clamped to the range of the sine. *)
Definition sin3 (x : Q) : Q :=
  Qmax (-1) (Qmin 1 (x - x * x * x / 6)).

End Renderer.

(* ------------------------------------------------------------------ *)
(** ** Recording session: the component's state and its callbacks *)

Module Session.

(** A [Blob]: its bytes and its type tag; [size] is the byte count. *)
Record Blob := { bytes : list Byte.byte; type : JS.jsstring }.

Definition size (b : Blob) : Z := Z.of_nat (List.length (bytes b)).

(** [new Blob(parts, { type })]: the parts concatenated in order. *)
Definition new_Blob (parts : list Blob) (ty : JS.jsstring) : Blob :=
  {| bytes := List.concat (List.map bytes parts); type := ty |}.

(** Object URLs, named by the order of their creation. *)
Definition Url := nat.

Inductive RecordingState := inactive | recording.

(** A [MediaRecorder]: [options] is the second constructor argument,
    [mimeType] with [videoBitsPerSecond], or [None] for [undefined]. *)
Record MediaRecorder := {
  streamFps : Q;
  options : option (JS.jsstring * Q);
  mimeType : JS.jsstring;
  state : RecordingState;
  timeslice : option Q
}.

(** What the browser answers. *)
Record Host := {
  isTypeSupported : JS.jsstring -> bool;
  defaultMimeType : JS.jsstring;
  performance_now : Q;
  getContext2d : bool
}.

(** The form values a render closes over. *)
Record Config := {
  env : Renderer.Env;
  duration : Q;
  fps : Q
}.

(** What the [step] callback of [animate] closes over: [totalMs], the
    [isRecording] of the render that built [animate], and [drawFrame]'s
    own environment.  [frameIntervalMs] is accepted and never read. *)
Record Closure := {
  totalMs : Q;
  seenRecording : bool;
  scene : Renderer.Env
}.

Record State := {
  canvasRef : bool;
  videoRef : option (option Url);
  mediaRecorderRef : option MediaRecorder;
  chunksRef : list Blob;
  rafRef : option nat;
  startTimeRef : Q;
  isRecording : bool;
  progress : Q;
  blobUrl : option Url;
  blobSize : Z;
  (* the page: live object URLs, the pending animation frame, the canvas *)
  urls : list (Url * Blob);
  minted : nat;
  scheduled : option (nat * Closure);
  frames : nat;
  ctx : Canvas.Ctx
}.

Definition set_videoRef v (s : State) : State :=
  {| canvasRef := canvasRef s; videoRef := v;
     mediaRecorderRef := mediaRecorderRef s; chunksRef := chunksRef s;
     rafRef := rafRef s; startTimeRef := startTimeRef s;
     isRecording := isRecording s; progress := progress s;
     blobUrl := blobUrl s; blobSize := blobSize s; urls := urls s;
     minted := minted s; scheduled := scheduled s; frames := frames s;
     ctx := ctx s |}.

Definition set_mediaRecorderRef v (s : State) : State :=
  {| canvasRef := canvasRef s; videoRef := videoRef s;
     mediaRecorderRef := v; chunksRef := chunksRef s;
     rafRef := rafRef s; startTimeRef := startTimeRef s;
     isRecording := isRecording s; progress := progress s;
     blobUrl := blobUrl s; blobSize := blobSize s; urls := urls s;
     minted := minted s; scheduled := scheduled s; frames := frames s;
     ctx := ctx s |}.

Definition set_chunksRef v (s : State) : State :=
  {| canvasRef := canvasRef s; videoRef := videoRef s;
     mediaRecorderRef := mediaRecorderRef s; chunksRef := v;
     rafRef := rafRef s; startTimeRef := startTimeRef s;
     isRecording := isRecording s; progress := progress s;
     blobUrl := blobUrl s; blobSize := blobSize s; urls := urls s;
     minted := minted s; scheduled := scheduled s; frames := frames s;
     ctx := ctx s |}.

Definition set_rafRef v (s : State) : State :=
  {| canvasRef := canvasRef s; videoRef := videoRef s;
     mediaRecorderRef := mediaRecorderRef s; chunksRef := chunksRef s;
     rafRef := v; startTimeRef := startTimeRef s;
     isRecording := isRecording s; progress := progress s;
     blobUrl := blobUrl s; blobSize := blobSize s; urls := urls s;
     minted := minted s; scheduled := scheduled s; frames := frames s;
     ctx := ctx s |}.

Definition set_startTimeRef v (s : State) : State :=
  {| canvasRef := canvasRef s; videoRef := videoRef s;
     mediaRecorderRef := mediaRecorderRef s; chunksRef := chunksRef s;
     rafRef := rafRef s; startTimeRef := v;
     isRecording := isRecording s; progress := progress s;
     blobUrl := blobUrl s; blobSize := blobSize s; urls := urls s;
     minted := minted s; scheduled := scheduled s; frames := frames s;
     ctx := ctx s |}.

Definition setIsRecording v (s : State) : State :=
  {| canvasRef := canvasRef s; videoRef := videoRef s;
     mediaRecorderRef := mediaRecorderRef s; chunksRef := chunksRef s;
     rafRef := rafRef s; startTimeRef := startTimeRef s;
     isRecording := v; progress := progress s;
     blobUrl := blobUrl s; blobSize := blobSize s; urls := urls s;
     minted := minted s; scheduled := scheduled s; frames := frames s;
     ctx := ctx s |}.

Definition setProgress v (s : State) : State :=
  {| canvasRef := canvasRef s; videoRef := videoRef s;
     mediaRecorderRef := mediaRecorderRef s; chunksRef := chunksRef s;
     rafRef := rafRef s; startTimeRef := startTimeRef s;
     isRecording := isRecording s; progress := v;
     blobUrl := blobUrl s; blobSize := blobSize s; urls := urls s;
     minted := minted s; scheduled := scheduled s; frames := frames s;
     ctx := ctx s |}.

Definition setBlobUrl v (s : State) : State :=
  {| canvasRef := canvasRef s; videoRef := videoRef s;
     mediaRecorderRef := mediaRecorderRef s; chunksRef := chunksRef s;
     rafRef := rafRef s; startTimeRef := startTimeRef s;
     isRecording := isRecording s; progress := progress s;
     blobUrl := v; blobSize := blobSize s; urls := urls s;
     minted := minted s; scheduled := scheduled s; frames := frames s;
     ctx := ctx s |}.

Definition setBlobSize v (s : State) : State :=
  {| canvasRef := canvasRef s; videoRef := videoRef s;
     mediaRecorderRef := mediaRecorderRef s; chunksRef := chunksRef s;
     rafRef := rafRef s; startTimeRef := startTimeRef s;
     isRecording := isRecording s; progress := progress s;
     blobUrl := blobUrl s; blobSize := v; urls := urls s;
     minted := minted s; scheduled := scheduled s; frames := frames s;
     ctx := ctx s |}.

Definition set_urls v n (s : State) : State :=
  {| canvasRef := canvasRef s; videoRef := videoRef s;
     mediaRecorderRef := mediaRecorderRef s; chunksRef := chunksRef s;
     rafRef := rafRef s; startTimeRef := startTimeRef s;
     isRecording := isRecording s; progress := progress s;
     blobUrl := blobUrl s; blobSize := blobSize s; urls := v;
     minted := n; scheduled := scheduled s; frames := frames s;
     ctx := ctx s |}.

Definition set_scheduled v n (s : State) : State :=
  {| canvasRef := canvasRef s; videoRef := videoRef s;
     mediaRecorderRef := mediaRecorderRef s; chunksRef := chunksRef s;
     rafRef := rafRef s; startTimeRef := startTimeRef s;
     isRecording := isRecording s; progress := progress s;
     blobUrl := blobUrl s; blobSize := blobSize s; urls := urls s;
     minted := minted s; scheduled := v; frames := n;
     ctx := ctx s |}.

Definition set_ctx v (s : State) : State :=
  {| canvasRef := canvasRef s; videoRef := videoRef s;
     mediaRecorderRef := mediaRecorderRef s; chunksRef := chunksRef s;
     rafRef := rafRef s; startTimeRef := startTimeRef s;
     isRecording := isRecording s; progress := progress s;
     blobUrl := blobUrl s; blobSize := blobSize s; urls := urls s;
     minted := minted s; scheduled := scheduled s; frames := frames s;
     ctx := v |}.

(** *** Browser primitives *)

(** [URL.createObjectURL]: a new URL, live until revoked. *)
Definition createObjectURL (b : Blob) (s : State) : Url * State :=
  let u := S (minted s) in
  (u, set_urls (urls s ++ [(u, b)]) u s).

(** [URL.revokeObjectURL]. *)
Definition revokeObjectURL (u : Url) (s : State) : State :=
  set_urls (filter (fun e => negb (Nat.eqb (fst e) u)) (urls s))
           (minted s) s.

(** [requestAnimationFrame(step)]: handles are positive and never
    reused; the result is stored into [rafRef.current] by both callers. *)
Definition requestAnimationFrame (cl : Closure) (s : State) : State :=
  let id := S (frames s) in
  set_rafRef (Some id) (set_scheduled (Some (id, cl)) id s).

(** [cancelAnimationFrame]: drops the pending callback if the handle is
    its own. *)
Definition cancelAnimationFrame (id : nat) (s : State) : State :=
  match scheduled s with
  | Some (id', _) =>
      if Nat.eqb id id' then set_scheduled None (frames s) s else s
  | None => s
  end.

(** [if (rafRef.current) cancelAnimationFrame(rafRef.current)]. *)
Definition cancelPending (s : State) : State :=
  match rafRef s with
  | Some id => if Nat.eqb id 0 then s else cancelAnimationFrame id s
  | None => s
  end.

(** [new MediaRecorder(stream, options)]. *)
Definition new_MediaRecorder (streamfps : Q)
    (opts : option (JS.jsstring * Q)) : MediaRecorder :=
  {| streamFps := streamfps; options := opts;
     mimeType := match opts with Some (m, _) => m | None => [] end;
     state := inactive; timeslice := None |}.

(** [mr.start(timeslice)]: a recorder built without a type takes the
    browser's default one. *)
Definition start (h : Host) (slice : Q) (mr : MediaRecorder) : MediaRecorder :=
  {| streamFps := streamFps mr; options := options mr;
     mimeType := if JS.truthy (mimeType mr) then mimeType mr
                 else defaultMimeType h;
     state := recording; timeslice := Some slice |}.

(** [try { mediaRecorderRef.current?.stop(); } catch {}]: stopping an
    inactive recorder throws, and the exception is swallowed. *)
Definition stopRecorder (s : State) : State :=
  match mediaRecorderRef s with
  | Some mr =>
      match state mr with
      | recording =>
          set_mediaRecorderRef
            (Some {| streamFps := streamFps mr; options := options mr;
                     mimeType := mimeType mr; state := inactive;
                     timeslice := timeslice mr |}) s
      | inactive => s
      end
  | None => s
  end.

(** *** The component's callbacks *)

Definition mimeTypes : list JS.jsstring :=
  [ JS.lit "video/webm;codecs=vp9";
    JS.lit "video/webm;codecs=vp8";
    JS.lit "video/webm";
    JS.lit "video/mp4" ].

(** [mr.ondataavailable]; [data] is [e.data], [None] when it is null. *)
Definition ondataavailable (data : option Blob) (s : State) : State :=
  match data with
  | Some b =>
      if (0 <? size b)%Z then set_chunksRef (chunksRef s ++ [b]) s else s
  | None => s
  end.

(** [mr.onstop], for the recorder [mr] it was attached to. *)
Definition onstop (mr : MediaRecorder) (s : State) : State :=
  let blob := new_Blob (chunksRef s)
                (JS.or_else (mimeType mr) (JS.lit "video/webm")) in
  let (url, s) := createObjectURL blob s in
  let s := setBlobUrl (Some url) s in
  let s := setBlobSize (size blob) s in
  match videoRef s with
  | Some _ => set_videoRef (Some (Some url)) s
  | None => s
  end.

(** [animate(ctx, totalMs, frameIntervalMs)]: schedules the first
    [step]. *)
Definition animate (cl : Closure) (s : State) : State :=
  requestAnimationFrame cl s.

Definition startRecording (h : Host) (cfg : Config) (s0 : State) : State :=
  if negb (canvasRef s0) then s0 else
  if isRecording s0 then s0 else
  let s := match blobUrl s0 with
           | Some u => revokeObjectURL u s0
           | None => s0
           end in
  let s := setBlobUrl None s in
  let s := setBlobSize 0 s in
  let s := set_chunksRef [] s in
  let supported := find (isTypeSupported h) mimeTypes in
  let mr := new_MediaRecorder (fps cfg)
              match supported with
              | Some m => Some (m, 6000000)
              | None => None
              end in
  let s := set_mediaRecorderRef (Some mr) s in
  let s := setIsRecording true s in
  let s := setProgress 0 s in
  let total := duration cfg * 1000 in
  let s := set_startTimeRef (performance_now h) s in
  if negb (getContext2d h) then s else
  let s := set_mediaRecorderRef
             (Some (start h (JS.max (1000 / fps cfg) 16) mr)) s in
  animate {| totalMs := total; seenRecording := isRecording s0;
             scene := env cfg |} s.

Definition stopRecording (s : State) : State :=
  let s := setIsRecording false s in
  let s := stopRecorder s in
  cancelPending s.

Section WithSin.

Variable sin : Q -> Q.

(** The [step] callback of [animate]. *)
Definition step (cl : Closure) (now : Q) (s : State) : State :=
  let elapsed := now - startTimeRef s in
  let clamped := JS.min elapsed (totalMs cl) in
  let s := setProgress (clamped / totalMs cl * 100) s in
  let s := set_ctx (snd (Renderer.drawFrame sin (scene cl) now (ctx s))) s in
  if (JS.lt elapsed (totalMs cl) && seenRecording cl)%bool then
    requestAnimationFrame cl s
  else
    let s := cancelPending s in
    let s := stopRecorder s in
    setIsRecording false s.

(** The browser runs the pending animation-frame callback, if any, at
    time [now]. *)
Definition tick (now : Q) (s : State) : State :=
  match scheduled s with
  | Some (_, cl) => step cl now (set_scheduled None (frames s) s)
  | None => s
  end.

(** The progress values reported over a sequence of frame times; a
    frame with nothing pending runs nothing. *)
Fixpoint reported (nows : list Q) (s : State) : list Q :=
  match nows with
  | [] => []
  | now :: rest =>
      match scheduled s with
      | Some _ => let s' := tick now s in progress s' :: reported rest s'
      | None => reported rest s
      end
  end.

End WithSin.

(** The component as first mounted. *)
Definition mounted : State := {|
  canvasRef := true; videoRef := Some None; mediaRecorderRef := None;
  chunksRef := []; rafRef := None; startTimeRef := 0;
  isRecording := false; progress := 0; blobUrl := None; blobSize := 0%Z;
  urls := []; minted := 0; scheduled := None; frames := 0;
  ctx := Canvas.fresh
|}.

(** The form's initial values. *)
Definition defaults : Config := {|
  env := {| Renderer.bgStyle := JS.lit "Aurora";
            Renderer.width := fst (Renderer.RESOLUTION_MAP Renderer.R720p);
            Renderer.height := snd (Renderer.RESOLUTION_MAP Renderer.R720p);
            Renderer.prompt :=
              JS.lit "A serene sunrise over mountains with floating particles";
            Renderer.subtitle :=
              JS.lit "Generated locally with Canvas + WebM" |};
  duration := 5;
  fps := 30
|}.

End Session.


(* ------------------------------------------------------------------ *)
(** ** Vocabulary of the statements *)

Module Spec.

Import Canvas Session.

(** [m] returns [a] and adds exactly [l] to the log, on every context. *)
Definition writes {A} (m : M A) (a : A) (l : list Cmd) : Prop :=
  forall c, fst (m c) = a /\ log (snd (m c)) = log c ++ l.

(** The one fact about [Math.sin] the statements rely on. *)
Definition bounded (sin : Q -> Q) : Prop := forall x, -1 <= sin x <= 1.

(** A particle (centre and radius) lies on a [w] by [h] surface with a
    radius between 0.5 and 3. *)
Definition in_surface (w h : Q) (p : Q * Q * Q) : Prop :=
  let '(x, y, r) := p in
  (0 <= x /\ x < w) /\ (0 <= y /\ y < h) /\ (0.5 <= r /\ r <= 3).

(** Progress as a fraction of the timeline, and as the percentage of it. *)
Definition fraction (start total now : Q) : Q :=
  Qmin (now - start) total / total.

Definition percent (start total now : Q) : Q :=
  Qmin (now - start) total / total * 100.

(** The frame times at which [step] runs: every frame up to and including
    the first one at which it does not reschedule itself. *)
Fixpoint fired (cl : Closure) (start : Q) (nows : list Q) : list Q :=
  match nows with
  | [] => []
  | now :: rest =>
      if (JS.lt (now - start) (totalMs cl) && seenRecording cl)%bool
      then now :: fired cl start rest
      else [now]
  end.

(** The chunks of positive size among the delivered events, in delivery
    order. *)
Definition positive_chunks (events : list (option Blob)) : list Blob :=
  filter (fun b => (0 <? size b)%Z)
    (flat_map (fun e => match e with Some b => [b] | None => [] end) events).

Definition total_size (l : list Blob) : Z :=
  fold_right Z.add 0%Z (List.map size l).

(** A run of [dataavailable] events. *)
Definition deliver (events : list (option Blob)) (s : State) : State :=
  fold_left (fun s e => ondataavailable e s) events s.

(** A browser that supports none of the listed types, and one that
    supports every WebM type. *)
Definition no_codec : Host := {|
  isTypeSupported := fun _ => false;
  defaultMimeType := JS.lit "video/x-matroska;codecs=avc1";
  performance_now := 0;
  getContext2d := true
|}.

Definition webm_host : Host := {|
  isTypeSupported := fun m => negb (JS.str_eqb m (JS.lit "video/mp4"));
  defaultMimeType := JS.lit "video/webm;codecs=vp8";
  performance_now := 0;
  getContext2d := true
|}.

(** A [Math.sin] that differs from [sin3] at one argument only. *)
Definition sin3_except (x0 v : Q) (x : Q) : Q :=
  if Qeq_bool x x0 then v else Renderer.sin3 x.

Definition chunk (n : nat) : Blob :=
  {| bytes := repeat Byte.x00 n; type := JS.lit "video/webm" |}.

End Spec.

(* ------------------------------------------------------------------ *)
(** ** The component over its lifetime *)

Module Lifecycle.

Import Canvas Session.

(** The cleanup of the effect keyed on [blobUrl]; [captured] is the
    [blobUrl] of the render that installed the effect. *)
Definition cleanup (captured : option Url) (s : State) : State :=
  let s := cancelPending s in
  let s := stopRecorder s in
  match captured with
  | Some u => revokeObjectURL u s
  | None => s
  end.

(** Equality of two values of [blobUrl]. *)
Definition same_url (a b : option Url) : bool :=
  match a, b with
  | Some x, Some y => Nat.eqb x y
  | None, None => true
  | _, _ => false
  end.

(** What can happen to a mounted component: the two buttons, an animation
    frame, the two events of a recorder ([Stopped mr] runs the [onstop]
    handler attached to [mr]), and a re-render.  The effect is keyed on
    [blobUrl]: a re-render that finds [blobUrl] different from the value
    [previous] seen by the render that installed the effect runs that
    effect's cleanup; otherwise it runs nothing. *)
Inductive Event :=
| Start (h : Host) (cfg : Config)
| Stop
| Frame (now : Q)
| Data (d : option Blob)
| Stopped (mr : MediaRecorder)
| Rerender (previous : option Url).

Section WithSin.

Variable sin : Q -> Q.

Definition handle (e : Event) (s : State) : State :=
  match e with
  | Start h cfg => startRecording h cfg s
  | Stop => stopRecording s
  | Frame now => tick sin now s
  | Data d => ondataavailable d s
  | Stopped mr => onstop mr s
  | Rerender previous =>
      if same_url previous (blobUrl s) then s else cleanup previous s
  end.

Definition run (evs : list Event) (s : State) : State :=
  fold_left (fun s e => handle e s) evs s.

End WithSin.

(** The data of the [dataavailable] events among a run of events. *)
Definition data_of (evs : list Event) : list (option Blob) :=
  flat_map (fun e => match e with Data d => [d] | _ => [] end) evs.

(** Events that neither start a recording nor finish one. *)
Definition in_recording (e : Event) : bool :=
  match e with
  | Start _ _ | Stopped _ => false
  | _ => true
  end.

(** The URLs that are live. *)
Definition live (s : State) : list Url := List.map fst (urls s).

(** A pending frame is the one [rafRef] names, and frames are pending only
    while recording. *)
Definition loop_ok (s : State) : Prop :=
  match scheduled s with
  | Some (id, _) => rafRef s = Some id /\ id <> 0%nat /\ isRecording s = true
  | None => True
  end.

(** Outside a recording the recorder, if any, is inactive. *)
Definition encoder_ok (s : State) : Prop :=
  isRecording s = false ->
  match mediaRecorderRef s with
  | Some mr => state mr = inactive
  | None => True
  end.

(** Live URLs are distinct and were minted. *)
Definition urls_ok (s : State) : Prop :=
  NoDup (live s) /\ Forall (fun u => (u <= minted s)%nat) (live s).

(** The current artifact: its URL is live and [blobSize] is the size of
    the blob behind it; with no artifact [blobSize] is 0. *)
Definition artifact_ok (s : State) : Prop :=
  match blobUrl s with
  | Some u => exists b, In (u, b) (urls s) /\ blobSize s = size b
  | None => blobSize s = 0%Z
  end.

Definition invariant (s : State) : Prop :=
  loop_ok s /\ encoder_ok s /\ urls_ok s /\ artifact_ok s.

(** The recorder is absent or inactive. *)
Definition encoder_idle (s : State) : Prop :=
  match mediaRecorderRef s with
  | Some mr => state mr = inactive
  | None => True
  end.

End Lifecycle.

(* ------------------------------------------------------------------ *)
(** ** Vocabulary for frames *)

Module Scene.

Import Canvas.

(** A colour CSS accepts: channels in 0..255, hue in 0..360, percentages
    in 0..100, alpha in 0..1.  Literal colours are taken as written. *)
Definition valid_color (c : Color) : Prop :=
  match c with
  | Rgba r g b a =>
      (0 <= r /\ r <= 255) /\ (0 <= g /\ g <= 255) /\
      (0 <= b /\ b <= 255) /\ (0 <= a /\ a <= 1)
  | Hsla h s l a =>
      (0 <= h /\ h <= 360) /\ (0 <= s /\ s <= 100) /\
      (0 <= l /\ l <= 100) /\ (0 <= a /\ a <= 1)
  | Css _ => True
  end.

(** The colours a command carries. *)
Definition colors_of (x : Cmd) : list Color :=
  match x with
  | AddColorStop _ c => [c]
  | SetFillStyle (Solid c) => [c]
  | SetFillStyle (Grad g) => List.map snd (stops g)
  | SetStrokeStyle (Solid c) => [c]
  | SetStrokeStyle (Grad g) => List.map snd (stops g)
  | SetShadowColor c => [c]
  | _ => []
  end.

Definition valid_cmd (x : Cmd) : Prop := Forall valid_color (colors_of x).

(** Commands that put pixels on the surface. *)
Definition is_paint (x : Cmd) : bool :=
  match x with
  | FillRect _ _ _ _ | StrokeRect _ _ _ _ | Fill | FillText _ _ _ => true
  | _ => false
  end.

(** Where text is drawn. *)
Definition anchors (l : list Cmd) : list (Q * Q) :=
  flat_map (fun x => match x with
                     | FillText _ x y => [(x, y)]
                     | _ => []
                     end) l.

End Scene.

(* ------------------------------------------------------------------ *)
(** ** Facts about the JavaScript primitives *)

Module JSFacts.

Import JS.

Lemma trimStart_blank s : blank s = true -> trimStart s = [].
Proof.
  induction s as [|c r IH]; cbn; [reflexivity|].
  destruct (is_ws c); cbn; [exact IH | discriminate].
Qed.

Lemma trimStart_not_blank s : blank s = false -> blank (trimStart s) = false.
Proof.
  induction s as [|c r IH]; cbn; [discriminate|].
  destruct (is_ws c) eqn:E; cbn; [exact IH | now rewrite E].
Qed.

Lemma blank_app a b : blank (a ++ b) = (blank a && blank b)%bool.
Proof. apply forallb_app. Qed.

Lemma blank_rev s : blank (rev s) = blank s.
Proof.
  induction s as [|c r IH]; cbn; [reflexivity|].
  rewrite blank_app, IH; cbn. rewrite andb_true_r. apply andb_comm.
Qed.

(** [trim] yields the empty string exactly on blank strings. *)
Lemma truthy_trim s : truthy (trim s) = negb (blank s).
Proof.
  unfold trim, trimEnd.
  destruct (blank s) eqn:B; cbn.
  - now rewrite (trimStart_blank s B).
  - pose proof (trimStart_not_blank s B) as B1.
    rewrite <- blank_rev in B1.
    pose proof (trimStart_not_blank _ B1) as B2.
    rewrite <- blank_rev in B2.
    destruct (rev (trimStart (rev (trimStart s)))); [discriminate | reflexivity].
Qed.

(** [Math.floor] keeps a number between two integers between them. *)
Lemma floor_between (lo hi : Z) x :
  inject_Z lo <= x -> x <= inject_Z hi ->
  inject_Z lo <= floor x /\ floor x <= inject_Z hi.
Proof.
  intros Hlo Hhi. unfold floor. split.
  - rewrite <- Zle_Qle. rewrite <- (Qfloor_Z lo). now apply Qfloor_resp_le.
  - rewrite <- Zle_Qle. rewrite <- (Qfloor_Z hi). now apply Qfloor_resp_le.
Qed.

Lemma abs_unit x : -1 <= x <= 1 -> 0 <= abs x <= 1.
Proof.
  intros [H1 H2]. unfold abs. split; [apply Qabs_nonneg|].
  apply Qabs_Qle_condition. split; assumption.
Qed.

(** For a non-negative dividend and a positive divisor, [%] lands in
    [0, divisor). *)
Lemma rem_range x y : 0 <= x -> 0 < y -> 0 <= rem x y /\ rem x y < y.
Proof.
  intros Hx Hy. unfold rem, trunc.
  assert (Hq : 0 <= x / y).
  { apply Qle_shift_div_l; [exact Hy | lra]. }
  destruct (Qle_bool 0 (x / y)) eqn:E.
  2:{ apply Qle_bool_iff in Hq. congruence. }
  pose proof (Qfloor_le (x / y)) as Hlo.
  pose proof (Qlt_floor (x / y)) as Hhi.
  rewrite inject_Z_plus in Hhi.
  set (k := inject_Z (Qfloor (x / y))) in *.
  assert (Hxy : x == (x / y) * y) by (field; lra).
  split.
  - assert (k * y <= (x / y) * y) by (apply Qmult_le_compat_r; lra).
    lra.
  - assert ((x / y) * y < (k + inject_Z 1) * y)
      by (apply Qmult_lt_compat_r; assumption).
    change (inject_Z 1) with 1 in *. lra.
Qed.

End JSFacts.

(* ------------------------------------------------------------------ *)
(** ** What code asks of the drawing context *)

Module CanvasFacts.

Import Canvas Spec.

Lemma writes_ret {A} (a : A) : writes (ret a) a [].
Proof. intros c; cbn. now rewrite app_nil_r. Qed.

Lemma writes_bind {A B} (m : M A) (k : A -> M B) a b l1 l2 :
  writes m a l1 -> writes (k a) b l2 -> writes (bind m k) b (l1 ++ l2).
Proof.
  intros Hm Hk c. unfold bind.
  destruct (Hm c) as [Ha Hl]. destruct (m c) as [a' c']; cbn in *. subst a'.
  destruct (Hk c') as [Hb Hl']. split; [exact Hb|].
  now rewrite Hl', Hl, app_assoc.
Qed.

Lemma writes_call x : writes (call x) tt [x].
Proof. intros c; split; reflexivity. Qed.

Lemma writes_createLinearGradient x0 y0 x1 y1 :
  writes (createLinearGradient x0 y0 x1 y1)
    {| geometry := Linear x0 y0 x1 y1; stops := [] |}
    [CreateLinearGradient x0 y0 x1 y1].
Proof. intros c; split; reflexivity. Qed.

Lemma writes_createRadialGradient x0 y0 r0 x1 y1 r1 :
  writes (createRadialGradient x0 y0 r0 x1 y1 r1)
    {| geometry := Radial x0 y0 r0 x1 y1 r1; stops := [] |}
    [CreateRadialGradient x0 y0 r0 x1 y1 r1].
Proof. intros c; split; reflexivity. Qed.

Lemma writes_addColorStop g o col :
  writes (addColorStop g o col)
    {| geometry := geometry g; stops := stops g ++ [(o, col)] |}
    [AddColorStop o col].
Proof. intros c; split; reflexivity. Qed.

Lemma writes_set_fillStyle s : writes (set_fillStyle s) tt [SetFillStyle s].
Proof. intros c; split; reflexivity. Qed.

Lemma writes_set_strokeStyle s :
  writes (set_strokeStyle s) tt [SetStrokeStyle s].
Proof. intros c; split; reflexivity. Qed.

Lemma writes_set_font f : writes (set_font f) tt [SetFont f].
Proof. intros c; split; reflexivity. Qed.

Lemma writes_set_textAlign a : writes (set_textAlign a) tt [SetTextAlign a].
Proof. intros c; split; reflexivity. Qed.

Lemma writes_set_shadowColor col :
  writes (set_shadowColor col) tt [SetShadowColor col].
Proof. intros c; split; reflexivity. Qed.

Lemma writes_set_shadowBlur b : writes (set_shadowBlur b) tt [SetShadowBlur b].
Proof. intros c; split; reflexivity. Qed.

Lemma writes_set_lineWidth w : writes (set_lineWidth w) tt [SetLineWidth w].
Proof. intros c; split; reflexivity. Qed.

Lemma writes_eq {A} (m : M A) a l l' : writes m a l -> l = l' -> writes m a l'.
Proof. now intros H <-. Qed.

(** The log only grows, so what a run issued is what it wrote. *)
Lemma writes_issued {A} (m : M A) a l : writes m a l -> forall c, issued m c = l.
Proof.
  intros H c. unfold issued. destruct (H c) as [_ ->].
  induction (log c) as [|x r IH]; [reflexivity | exact IH].
Qed.

Create HintDb canvas.
#[export] Hint Resolve writes_ret writes_call writes_createLinearGradient
  writes_createRadialGradient writes_addColorStop writes_set_fillStyle
  writes_set_strokeStyle writes_set_font writes_set_textAlign
  writes_set_shadowColor writes_set_shadowBlur writes_set_lineWidth : canvas.

(** Follows a straight-line block statement by statement. *)
Ltac follow :=
  cbv beta zeta;
  lazymatch goal with
  | |- writes (bind _ _) _ _ =>
      eapply writes_bind; [ follow | follow ]
  | |- writes (fillRect _ _ _ _) _ _ => apply writes_call
  | |- writes (strokeRect _ _ _ _) _ _ => apply writes_call
  | |- writes (arc _ _ _ _ _) _ _ => apply writes_call
  | |- writes (fillText _ _ _) _ _ => apply writes_call
  | |- writes beginPath _ _ => apply writes_call
  | |- writes fill _ _ => apply writes_call
  | |- _ => solve [ auto with canvas ]
  end.

End CanvasFacts.

(* ------------------------------------------------------------------ *)
(** ** The renderer, branch by branch *)

Module RendererFacts.

Import Canvas Spec Renderer CanvasFacts.

Section WithSin.

Variable sin : Q -> Q.

Lemma texts_app l1 l2 : texts (l1 ++ l2) = texts l1 ++ texts l2.
Proof. apply flat_map_app. Qed.

Lemma arcs_app l1 l2 : arcs (l1 ++ l2) = arcs l1 ++ arcs l2.
Proof. apply flat_map_app. Qed.

(** The Aurora branch: a gradient across the whole surface whose stops are
    built from the first two waves. *)
Lemma aurora_writes w h t :
  let a := sin (t * 0.0006) * 0.5 + 0.5 in
  let b := sin (t * 0.0009 + 1.2) * 0.5 + 0.5 in
  let s0 := Rgba (JS.floor (40 + 80 * a)) 80 255 0.9 in
  let s1 := Rgba 10 (JS.floor (40 + 140 * b)) 120 0.9 in
  writes (aurora sin w h t) tt
    [ CreateLinearGradient 0 0 w h;
      AddColorStop 0 s0;
      AddColorStop 1 s1;
      SetFillStyle (Grad {| geometry := Linear 0 0 w h;
                            stops := [(0, s0); (1, s1)] |});
      FillRect 0 0 w h ].
Proof.
  intros a b s0 s1. unfold aurora.
  eapply writes_eq; [ follow | reflexivity ].
Qed.

Lemma waves_writes w h t :
  exists l, writes (waves sin w h t) tt l /\ texts l = [] /\ arcs l = [].
Proof.
  unfold waves. eexists. split; [ follow | split; reflexivity ].
Qed.

(** One particle: a fill style, then one full circle. *)
Lemma particle_writes w h t i :
  let s := inject_Z (Z.of_nat i) * 13.37 + t * 0.12 in
  exists l, writes (particle sin w h t i) tt l /\ texts l = [] /\
    arcs l = [ (JS.rem (rnd sin s * w) w,
                JS.rem (rnd sin (s + 42) * h) h,
                0.5 + rnd sin (s + 99) * 2.5) ].
Proof.
  intros s. unfold particle. eexists.
  split; [ follow | split; reflexivity ].
Qed.

(** The particle loop, by induction on the iterations left. *)
Lemma particle_loop_writes w h t n : forall lo,
  exists l, writes (for_ n lo (particle sin w h t)) tt l /\ texts l = [] /\
    arcs l =
      List.map (fun i =>
             let s := inject_Z (Z.of_nat i) * 13.37 + t * 0.12 in
             (JS.rem (rnd sin s * w) w,
              JS.rem (rnd sin (s + 42) * h) h,
              0.5 + rnd sin (s + 99) * 2.5)) (seq lo n).
Proof.
  induction n as [|n IH]; intros lo; cbn [for_ seq List.map].
  - exists []. split; [apply writes_ret | split; reflexivity].
  - destruct (particle_writes w h t lo) as (l1 & W1 & T1 & A1).
    destruct (IH (S lo)) as (l2 & W2 & T2 & A2).
    exists (l1 ++ l2). split; [|split].
    + eapply writes_bind; [exact W1 | exact W2].
    + now rewrite texts_app, T1, T2.
    + rewrite arcs_app, A1, A2. reflexivity.
Qed.

Lemma particles_writes w h t :
  exists l, writes (particles sin w h t) tt l /\ texts l = [] /\
    arcs l =
      List.map (fun i =>
             let s := inject_Z (Z.of_nat i) * 13.37 + t * 0.12 in
             (JS.rem (rnd sin s * w) w,
              JS.rem (rnd sin (s + 42) * h) h,
              0.5 + rnd sin (s + 99) * 2.5)) (seq 0 300).
Proof.
  destruct (particle_loop_writes w h t 300 0%nat) as (l & W & T & A).
  unfold particles. eexists. split; [|split].
  - eapply writes_bind; [ follow |].
    eapply writes_bind; [ follow | exact W ].
  - cbn [app]. exact T.
  - cbn [app]. exact A.
Qed.

(** No branch of the background draws text. *)
Lemma background_writes e t :
  exists l, writes (background sin e t) tt l /\ texts l = [].
Proof.
  unfold background.
  destruct (JS.str_eqb (bgStyle e) (JS.lit "Aurora")).
  - eexists. split; [ apply aurora_writes | reflexivity ].
  - destruct (JS.str_eqb (bgStyle e) (JS.lit "Particles")).
    + destruct (particles_writes (width e) (height e) t) as (l & W & T & _).
      now exists l.
    + destruct (waves_writes (width e) (height e) t) as (l & W & T & _).
      now exists l.
Qed.

(** The overlay draws the title, then the subtitle when it is not blank,
    and no arc. *)
Lemma overlay_writes e t :
  exists l, writes (overlay sin e t) tt l /\
    texts l =
      (if JS.blank (prompt e) then placeholder else JS.trim (prompt e))
      :: (if JS.blank (subtitle e) then [] else [JS.trim (subtitle e)]) /\
    arcs l = [].
Proof.
  unfold overlay, JS.or_else.
  rewrite !JSFacts.truthy_trim.
  destruct (JS.blank (prompt e)), (JS.blank (subtitle e)); cbn [negb when];
    eexists; (split; [ follow | split; reflexivity ]).
Qed.

Lemma drawFrame_writes e t :
  exists l, writes (drawFrame sin e t) tt l /\
    texts l =
      (if JS.blank (prompt e) then placeholder else JS.trim (prompt e))
      :: (if JS.blank (subtitle e) then [] else [JS.trim (subtitle e)]).
Proof.
  destruct (background_writes e t) as (l1 & W1 & T1).
  destruct (overlay_writes e t) as (l2 & W2 & T2 & _).
  exists (l1 ++ l2). split.
  - unfold drawFrame. eapply writes_bind; [exact W1 | exact W2].
  - now rewrite texts_app, T1, T2.
Qed.

End WithSin.

End RendererFacts.

(* ------------------------------------------------------------------ *)
(** ** Scene renderer: the statements *)

Import Canvas Renderer Session Spec.

Lemma sin3_bounded : bounded sin3.
Proof.
  intros x. unfold sin3. split.
  - apply Q.le_max_l.
  - apply Q.max_lub; [ discriminate | apply Q.le_min_l ].
Qed.

Lemma rnd_unit sin s : bounded sin -> 0 <= rnd sin s /\ rnd sin s <= 1.
Proof. intros H. unfold rnd. apply JSFacts.abs_unit, H. Qed.

(** C3.  The Aurora gradient is driven by two waves, not three: the code
    computes the third, [0.5*sin(0.0007 t + 2.7)+0.5], and drops it.  For
    every time, scene with the Aurora background and context, the frame is
    the same, command for command, under any two sines that agree at the
    arguments of the first two waves, [0.0006 t] and [0.0009 t + 1.2], and
    of the text wobble, [0.003 t] -- whatever they return at the third
    wave's argument.  So no drawing command, stop colour or other, carries
    the third wave. *)
Theorem aurora_frame_ignores_third_wave
    (sin1 sin2 : Q -> Q) (e : Env) (t : Q) (c : Ctx) :
  bgStyle e = JS.lit "Aurora" ->
  sin1 (t * 0.0006) = sin2 (t * 0.0006) ->
  sin1 (t * 0.0009 + 1.2) = sin2 (t * 0.0009 + 1.2) ->
  sin1 (t * 0.003) = sin2 (t * 0.003) ->
  issued (drawFrame sin1 e t) c = issued (drawFrame sin2 e t) c.
Proof.
  intros Hbg Ha Hb Hw.
  assert (Hback : background sin1 e t = background sin2 e t).
  { unfold background. rewrite Hbg. cbn [JS.str_eqb].
    destruct (list_eq_dec N.eq_dec (JS.lit "Aurora") (JS.lit "Aurora"))
      as [_|N]; [| now elim N].
    unfold aurora. cbv zeta. rewrite Ha, Hb. reflexivity. }
  assert (Hover : overlay sin1 e t = overlay sin2 e t).
  { unfold overlay. cbv zeta. rewrite Hw. reflexivity. }
  unfold drawFrame. now rewrite Hback, Hover.
Qed.

Lemma aurora_frame_ignores_third_wave_witness :
  let t := 1000 in
  let sinA := sin3 in
  let sinB := sin3_except (t * 0.0007 + 2.7) 1 in
  (sinA (t * 0.0007 + 2.7) * 0.5 + 0.5 == 0) /\
  (sinB (t * 0.0007 + 2.7) * 0.5 + 0.5 == 1) /\
  issued (drawFrame sinA (env defaults) t) fresh =
  issued (drawFrame sinB (env defaults) t) fresh.
Proof.
  intros t sinA sinB.
  split; [reflexivity | split; [reflexivity |]].
  apply (aurora_frame_ignores_third_wave sinA sinB (env defaults) t fresh);
    reflexivity.
Defined.

(** C7.  Whatever the time, the scene and the prior state of the context,
    the strings a frame draws are: first the title, which is the
    placeholder when the configured title is empty or whitespace-only and
    the trimmed configured title otherwise; then the trimmed subtitle, and
    only when the configured subtitle is not empty or whitespace-only. *)
Theorem title_placeholder_and_optional_subtitle
    (sin : Q -> Q) (e : Env) (t : Q) (c : Ctx) :
  texts (issued (drawFrame sin e t) c) =
    (if JS.blank (prompt e) then JS.lit "Your animated title"
     else JS.trim (prompt e))
    :: (if JS.blank (subtitle e) then [] else [JS.trim (subtitle e)]).
Proof.
  destruct (RendererFacts.drawFrame_writes sin e t) as (l & W & T).
  rewrite (CanvasFacts.writes_issued _ _ _ W c). exact T.
Qed.

(** C9.  [drawFrame] is deterministic: with the same time and the same
    configuration, two invocations issue the same sequence of drawing
    commands with the same parameters, whatever state the two contexts
    were left in before. *)
Theorem drawFrame_deterministic
    (sin : Q -> Q) (e : Env) (t : Q) (c1 c2 : Ctx) :
  issued (drawFrame sin e t) c1 = issued (drawFrame sin e t) c2.
Proof.
  destruct (RendererFacts.drawFrame_writes sin e t) as (l & W & _).
  now rewrite (CanvasFacts.writes_issued _ _ _ W c1),
              (CanvasFacts.writes_issued _ _ _ W c2).
Qed.

(** C10.  The pseudo-random function [|sin(seed*9999.91)|] lies in
    [0,1]; so, with the Particles background on a surface of positive width
    and height, a frame draws exactly 300 arcs, and each has its centre on
    the surface, [0 <= x < width] and [0 <= y < height], and a radius in
    [0.5, 3]. *)
Theorem particles_within_surface
    (sin : Q -> Q) (e : Env) (t : Q) (c : Ctx) :
  bounded sin ->
  bgStyle e = JS.lit "Particles" ->
  0 < width e -> 0 < height e ->
  (forall seed, 0 <= rnd sin seed /\ rnd sin seed <= 1) /\
  List.length (arcs (issued (drawFrame sin e t) c)) = 300%nat /\
  Forall (in_surface (width e) (height e))
         (arcs (issued (drawFrame sin e t) c)).
Proof.
  intros Hsin Hbg Hw Hh.
  split; [intros seed; apply rnd_unit, Hsin |].
  destruct (RendererFacts.particles_writes sin (width e) (height e) t)
    as (l1 & W1 & _ & A1).
  destruct (RendererFacts.overlay_writes sin e t) as (l2 & W2 & _ & A2).
  assert (W : writes (drawFrame sin e t) tt (l1 ++ l2)).
  { unfold drawFrame. eapply CanvasFacts.writes_bind; [| exact W2].
    unfold background. rewrite Hbg. exact W1. }
  rewrite (CanvasFacts.writes_issued _ _ _ W c).
  rewrite RendererFacts.arcs_app, A1, A2, app_nil_r.
  split.
  - now rewrite length_map, length_seq.
  - apply Forall_map, Forall_forall. intros i _. cbv zeta.
    unfold in_surface.
    set (s := inject_Z (Z.of_nat i) * 13.37 + t * 0.12).
    pose proof (rnd_unit sin s Hsin) as [Hx0 Hx1].
    pose proof (rnd_unit sin (s + 42) Hsin) as [Hy0 Hy1].
    pose proof (rnd_unit sin (s + 99) Hsin) as [Hr0 Hr1].
    split; [| split].
    + apply JSFacts.rem_range; [apply Qmult_le_0_compat; lra | exact Hw].
    + apply JSFacts.rem_range; [apply Qmult_le_0_compat; lra | exact Hh].
    + split; lra.
Qed.

Lemma particles_within_surface_witness :
  let e := {| bgStyle := JS.lit "Particles"; width := 1920; height := 1080;
              prompt := JS.lit "Hello"; subtitle := [] |} in
  (forall seed, 0 <= rnd sin3 seed /\ rnd sin3 seed <= 1) /\
  List.length (arcs (issued (drawFrame sin3 e 2500) fresh)) = 300%nat /\
  Forall (in_surface 1920 1080) (arcs (issued (drawFrame sin3 e 2500) fresh)).
Proof.
  intros e.
  apply (particles_within_surface sin3 e 2500 fresh sin3_bounded);
    reflexivity.
Defined.

(* ------------------------------------------------------------------ *)
(** ** Recording session: what each callback leaves alone *)

Module SessionFacts.

(** Case analysis on every [match] and [if] the goal is stuck on. *)
Ltac cases :=
  repeat match goal with
         | |- context [match ?x with _ => _ end] => destruct x eqn:?
         end.

Lemma cancelPending_idle s :
  scheduled s = None -> cancelPending s = s.
Proof.
  intros H. unfold cancelPending, cancelAnimationFrame. rewrite H.
  now cases.
Qed.

Lemma stopRecorder_frame s :
  progress (stopRecorder s) = progress s /\
  startTimeRef (stopRecorder s) = startTimeRef s /\
  scheduled (stopRecorder s) = scheduled s /\
  isRecording (stopRecorder s) = isRecording s.
Proof. unfold stopRecorder. cases; repeat split. Qed.

Section WithSin.

Variable sin : Q -> Q.

(** One run of [step], started with no frame pending (the browser takes
    the callback off its list before it runs it). *)
Lemma step_effect cl now s :
  scheduled s = None ->
  let s' := step sin cl now s in
  progress s' = percent (startTimeRef s) (totalMs cl) now /\
  startTimeRef s' = startTimeRef s /\
  (if (JS.lt (now - startTimeRef s) (totalMs cl) && seenRecording cl)%bool
   then scheduled s' = Some (S (frames s), cl)
   else scheduled s' = None /\ isRecording s' = false).
Proof.
  intros Hs. unfold step. cbv zeta.
  destruct (JS.lt (now - startTimeRef s) (totalMs cl) && seenRecording cl)%bool.
  - repeat split.
  - rewrite cancelPending_idle by exact Hs.
    match goal with
    | |- context [stopRecorder ?x] =>
        destruct (stopRecorder_frame x) as (Hp & Ht & Hf & _)
    end.
    cbn [progress startTimeRef scheduled isRecording setIsRecording].
    rewrite Hp, Ht, Hf. repeat split. exact Hs.
Qed.

Lemma tick_effect id cl now s :
  scheduled s = Some (id, cl) ->
  let s' := tick sin now s in
  progress s' = percent (startTimeRef s) (totalMs cl) now /\
  startTimeRef s' = startTimeRef s /\
  (if (JS.lt (now - startTimeRef s) (totalMs cl) && seenRecording cl)%bool
   then scheduled s' = Some (S (frames s), cl)
   else scheduled s' = None /\ isRecording s' = false).
Proof.
  intros Hs. unfold tick. rewrite Hs.
  apply (step_effect cl now (set_scheduled None (frames s) s)).
  reflexivity.
Qed.

(** The values reported over a run are the percentages at the frames that
    fire. *)
Lemma reported_fired nows : forall id cl s,
  scheduled s = Some (id, cl) ->
  reported sin nows s =
    List.map (percent (startTimeRef s) (totalMs cl))
             (fired cl (startTimeRef s) nows).
Proof.
  induction nows as [|now rest IH]; intros id cl s Hs; [reflexivity|].
  cbn [reported fired]. rewrite Hs.
  destruct (tick_effect id cl now s Hs) as (Hp & Ht & Hn).
  destruct (JS.lt (now - startTimeRef s) (totalMs cl) && seenRecording cl)%bool.
  - cbn [List.map]. rewrite Hp. f_equal.
    rewrite (IH _ _ _ Hn), Ht. reflexivity.
  - cbn [List.map]. rewrite Hp. f_equal.
    destruct Hn as [Hn _]. clear - Hn.
    generalize dependent (tick sin now s). intros s' Hn.
    induction rest as [|x r IHr]; cbn [reported]; [reflexivity|].
    now rewrite Hn.
Qed.

End WithSin.

(** *** Arithmetic of the progress value *)

Lemma percent_monotone start total n1 n2 :
  0 < total -> n1 <= n2 -> percent start total n1 <= percent start total n2.
Proof.
  intros HT Hn. unfold percent, Qdiv.
  assert (Hinv : 0 < / total) by (apply Qinv_lt_0_compat; exact HT).
  assert (Hmin : Qmin (n1 - start) total <= Qmin (n2 - start) total).
  { apply Q.min_le_compat_r. lra. }
  apply Qmult_le_compat_r; [| discriminate].
  apply Qmult_le_compat_r; [exact Hmin | lra].
Qed.

Lemma percent_range start total now :
  0 < total -> start <= now ->
  0 <= percent start total now /\ percent start total now <= 100.
Proof.
  intros HT Hn. unfold percent.
  assert (H0 : 0 <= Qmin (now - start) total).
  { apply Q.min_glb; lra. }
  assert (H1 : Qmin (now - start) total <= total) by apply Q.le_min_r.
  assert (Hlo : 0 <= Qmin (now - start) total / total).
  { apply Qle_shift_div_l; [exact HT | lra]. }
  assert (Hhi : Qmin (now - start) total / total <= 1).
  { apply Qle_shift_div_r; [exact HT | lra]. }
  split; lra.
Qed.

Lemma percent_full start total now :
  0 < total -> total <= now - start -> percent start total now == 100.
Proof.
  intros HT Hn. unfold percent.
  rewrite (Q.min_r _ _ Hn). field. lra.
Qed.

Lemma fired_incl cl start nows x : In x (fired cl start nows) -> In x nows.
Proof.
  induction nows as [|n r IH]; cbn [fired]; [tauto|].
  destruct (JS.lt (n - start) (totalMs cl) && seenRecording cl)%bool.
  - intros [->|H]; [now left | right; auto].
  - intros [->|[]]. now left.
Qed.

(** A monotone function keeps the frames that fire in order. *)
Lemma fired_sorted cl start (f : Q -> Q) nows :
  (forall a b, a <= b -> f a <= f b) ->
  StronglySorted Qle nows ->
  StronglySorted Qle (List.map f (fired cl start nows)).
Proof.
  intros Hf. induction 1 as [|n r Hr IH Hall]; cbn [fired].
  - constructor.
  - destruct (JS.lt (n - start) (totalMs cl) && seenRecording cl)%bool;
      cbn [List.map]; constructor; try constructor; try exact IH.
    apply Forall_forall. intros y Hy.
    apply in_map_iff in Hy. destruct Hy as (x & <- & Hx).
    apply Hf. apply fired_incl in Hx.
    rewrite Forall_forall in Hall. auto.
Qed.

(** *** The capture buffer *)

Lemma size_new_Blob parts ty : size (new_Blob parts ty) = total_size parts.
Proof.
  unfold size, new_Blob, total_size; cbn [bytes].
  induction parts as [|b r IH]; cbn [List.map List.concat fold_right];
    [reflexivity|].
  rewrite length_app, Nat2Z.inj_add, IH. reflexivity.
Qed.

Lemma find_unsupported (f : JS.jsstring -> bool) l :
  (forall m, In m l -> f m = false) -> find f l = None.
Proof.
  intros H. destruct (find f l) as [m|] eqn:E; [|reflexivity].
  apply find_some in E. destruct E as [Hin Hf].
  rewrite (H m Hin) in Hf. discriminate.
Qed.

End SessionFacts.

(* ------------------------------------------------------------------ *)
(** ** Capture pipeline and session controller: the statements *)

(** C1, as the spec words it, fails.  On a browser that supports none of
    the four listed types, [startRecording] on the freshly mounted
    component does not fail and does not stay idle: it builds the recorder
    with [undefined] options, that is the browser's default format, starts
    it, and sets [isRecording]. *)
Lemma start_without_codec_records_anyway :
  let s := startRecording no_codec defaults mounted in
  forallb (fun m => negb (isTypeSupported no_codec m)) mimeTypes = true /\
  isRecording mounted = false /\
  isRecording s = true /\
  option_map options (mediaRecorderRef s) = Some None /\
  option_map state (mediaRecorderRef s) = Some recording /\
  option_map mimeType (mediaRecorderRef s) = Some (defaultMimeType no_codec).
Proof. vm_compute. repeat split. Qed.

(** C1, as the code has it.  When none of the listed types is supported,
    [startRecording] on a mounted component that is not recording builds
    the recorder without options, leaving the format to the browser, and
    sets [isRecording]; when the canvas gives a 2D context the recorder is
    started as well.  The code has no unsupported-format failure. *)
Theorem start_falls_back_to_default_format
    (h : Host) (cfg : Config) (s : State) :
  (forall m, In m mimeTypes -> isTypeSupported h m = false) ->
  canvasRef s = true ->
  isRecording s = false ->
  isRecording (startRecording h cfg s) = true /\
  option_map options (mediaRecorderRef (startRecording h cfg s)) = Some None /\
  (getContext2d h = true ->
   option_map state (mediaRecorderRef (startRecording h cfg s))
     = Some recording).
Proof.
  intros Hnone Hc Hr. unfold startRecording.
  rewrite Hc, Hr, (SessionFacts.find_unsupported _ _ Hnone).
  cbn [negb]. destruct (getContext2d h); cbn [negb].
  - repeat split.
  - repeat split. discriminate.
Qed.

Lemma start_falls_back_to_default_format_witness :
  isRecording (startRecording no_codec defaults mounted) = true /\
  option_map options (mediaRecorderRef (startRecording no_codec defaults mounted))
    = Some None /\
  (getContext2d no_codec = true ->
   option_map state (mediaRecorderRef (startRecording no_codec defaults mounted))
     = Some recording).
Proof.
  apply (start_falls_back_to_default_format no_codec defaults mounted).
  - intros m Hm. reflexivity.
  - reflexivity.
  - reflexivity.
Defined.

(** C2, as the spec words it, fails: the reported value is a percentage.
    Half way through a 5000 ms recording started at time 0, the tick
    reports 50, where the fraction [min(now - s, total)/total] is 1/2; 50 is
    not in [0,1]. *)
Lemma progress_is_a_percentage :
  let s := startRecording webm_host defaults mounted in
  startTimeRef s == 0 /\
  option_map (fun p => totalMs (snd p)) (scheduled s) = Some (5 * 1000) /\
  progress (tick sin3 2500 s) == 50 /\
  fraction 0 5000 2500 == 1 # 2 /\
  Qle_bool (progress (tick sin3 2500 s)) 1 = false.
Proof. vm_compute. repeat split. Qed.

(** C2, as the code has it.  After every tick of a recording with start
    timestamp [s] and positive total duration [total], at a time
    [now >= s], the reported progress is
    [min(now - s, total) / total * 100], a percentage in [0,100]. *)
Theorem tick_reports_percentage
    (sin : Q -> Q) (id : nat) (cl : Closure) (now : Q) (s : State) :
  scheduled s = Some (id, cl) ->
  0 < totalMs cl ->
  startTimeRef s <= now ->
  progress (tick sin now s)
    = Qmin (now - startTimeRef s) (totalMs cl) / totalMs cl * 100 /\
  0 <= progress (tick sin now s) /\
  progress (tick sin now s) <= 100.
Proof.
  intros Hs HT Hn.
  destruct (SessionFacts.tick_effect sin id cl now s Hs) as (Hp & _).
  rewrite Hp. split; [reflexivity|].
  apply SessionFacts.percent_range; assumption.
Qed.

Lemma tick_reports_percentage_witness :
  let s := startRecording webm_host defaults mounted in
  progress (tick sin3 1250 s) = Qmin (1250 - startTimeRef s) (5 * 1000) / (5 * 1000) * 100 /\
  0 <= progress (tick sin3 1250 s) /\
  progress (tick sin3 1250 s) <= 100.
Proof.
  intros s.
  apply (tick_reports_percentage sin3 1%nat
           {| totalMs := 5 * 1000; seenRecording := false;
              scene := env defaults |} 1250 s);
    [ reflexivity | reflexivity | discriminate ].
Defined.

(** C4, as the spec words it, fails: at the tick whose elapsed time
    reaches the total duration the reported value is 100, not 1.  A
    5000 ms recording started at time 0 reports 100 at the tick at 5000,
    and that tick ends the recording. *)
Lemma progress_at_completion_is_100 :
  let s := startRecording webm_host defaults mounted in
  startTimeRef s == 0 /\
  progress (tick sin3 5000 s) == 100 /\
  Qeq_bool (progress (tick sin3 5000 s)) 1 = false /\
  isRecording (tick sin3 5000 s) = false /\
  scheduled (tick sin3 5000 s) = None.
Proof. vm_compute. repeat split. Qed.

(** C4, as the code has it.  For one recording, with a fixed start
    timestamp and a positive total duration, the progress values reported
    over any non-decreasing sequence of frame times are non-decreasing;
    and a tick whose elapsed time has reached the total duration reports
    exactly 100, schedules no further frame and clears [isRecording]. *)
Theorem progress_nondecreasing_and_100_at_completion
    (sin : Q -> Q) (id : nat) (cl : Closure) (nows : list Q) (s : State) :
  scheduled s = Some (id, cl) ->
  0 < totalMs cl ->
  Sorted Qle nows ->
  Sorted Qle (reported sin nows s) /\
  (forall now, totalMs cl <= now - startTimeRef s ->
     progress (tick sin now s) == 100 /\
     scheduled (tick sin now s) = None /\
     isRecording (tick sin now s) = false).
Proof.
  intros Hs HT Hsorted. split.
  - rewrite (SessionFacts.reported_fired sin nows id cl s Hs).
    apply StronglySorted_Sorted, SessionFacts.fired_sorted.
    + intros a b Hab. now apply SessionFacts.percent_monotone.
    + apply Sorted_StronglySorted; [| exact Hsorted].
      intros x y z. apply Qle_trans.
  - intros now Hnow.
    destruct (SessionFacts.tick_effect sin id cl now s Hs) as (Hp & _ & Hn).
    assert (Hlt : JS.lt (now - startTimeRef s) (totalMs cl) = false).
    { unfold JS.lt. apply negb_false_iff, Qle_bool_iff. exact Hnow. }
    rewrite Hlt in Hn. cbn [andb] in Hn. destruct Hn as [Hn1 Hn2].
    rewrite Hp. split; [| split; assumption].
    now apply SessionFacts.percent_full.
Qed.

Lemma progress_nondecreasing_and_100_at_completion_witness :
  let s := startRecording webm_host defaults mounted in
  Sorted Qle (reported sin3 [16; 2500; 5000; 5016] s) /\
  (forall now, 5 * 1000 <= now - startTimeRef s ->
     progress (tick sin3 now s) == 100 /\
     scheduled (tick sin3 now s) = None /\
     isRecording (tick sin3 now s) = false).
Proof.
  intros s.
  apply (progress_nondecreasing_and_100_at_completion sin3 1%nat
           {| totalMs := 5 * 1000; seenRecording := false;
              scene := env defaults |} [16; 2500; 5000; 5016] s).
  - reflexivity.
  - reflexivity.
  - repeat constructor; discriminate.
Defined.

(** C5.  [onstop] builds one blob from the buffered chunks: its size is
    the sum of their sizes, it is published under a newly minted URL, and
    both are stored as the current artifact.  With an empty buffer it does
    the same: the artifact is the empty blob, of size zero. *)
Theorem onstop_artifact_size (mr : MediaRecorder) (s : State) :
  let ty := JS.or_else (mimeType mr) (JS.lit "video/webm") in
  let blob := new_Blob (chunksRef s) ty in
  size blob = total_size (chunksRef s) /\
  blobSize (onstop mr s) = total_size (chunksRef s) /\
  blobUrl (onstop mr s) = Some (S (minted s)) /\
  urls (onstop mr s) = urls s ++ [(S (minted s), blob)] /\
  blobSize (onstop mr (set_chunksRef [] s)) = 0%Z /\
  blobUrl (onstop mr (set_chunksRef [] s)) = Some (S (minted s)) /\
  urls (onstop mr (set_chunksRef [] s))
    = urls s ++ [(S (minted s), {| bytes := []; type := ty |})].
Proof.
  intros ty blob. subst ty blob.
  unfold onstop, createObjectURL. cbv zeta.
  destruct (videoRef s) eqn:Hv; cbn; rewrite ?Hv; cbn;
    repeat split; apply SessionFacts.size_new_Blob.
Qed.

(** C6.  [startRecording] while [isRecording] holds returns at once: the
    whole state is unchanged -- session state, progress, artifact URL and
    size, live object URLs, chunk buffer, recorder, pending frame. *)
Theorem start_while_recording_is_noop (h : Host) (cfg : Config) (s : State) :
  isRecording s = true -> startRecording h cfg s = s.
Proof.
  intros Hr. unfold startRecording. rewrite Hr.
  destruct (canvasRef s); reflexivity.
Qed.

Lemma start_while_recording_is_noop_witness :
  let s := deliver [Some (chunk 7)] (startRecording webm_host defaults mounted) in
  isRecording s = true /\ startRecording no_codec defaults s = s.
Proof.
  intros s. split; [reflexivity |].
  apply (start_while_recording_is_noop no_codec defaults s). reflexivity.
Defined.

(** C8.  Over any run of [dataavailable] events, every chunk of positive
    size is appended to the buffer and every other event (size zero, or no
    data) leaves it alone: the buffer ends as what it was, followed by the
    positive-size chunks in their delivery order. *)
Theorem buffer_keeps_positive_chunks_in_order
    (events : list (option Blob)) (s : State) :
  chunksRef (deliver events s) = chunksRef s ++ positive_chunks events.
Proof.
  unfold deliver, positive_chunks.
  revert s. induction events as [|e r IH]; intros s; cbn [fold_left flat_map].
  - cbn. now rewrite app_nil_r.
  - rewrite IH. destruct e as [b|]; cbn [ondataavailable app].
    + cbn [filter]. destruct (0 <? size b)%Z; cbn [chunksRef set_chunksRef].
      * now rewrite <- app_assoc.
      * reflexivity.
    + reflexivity.
Qed.

(** A recording started by [startRecording] ends at its first animation
    frame, whatever the elapsed time: [step] reads the [isRecording] of the
    render that built [animate], and that render was not recording. *)
Theorem first_frame_ends_recording
    (sin : Q -> Q) (h : Host) (cfg : Config) (s : State) (now : Q) :
  canvasRef s = true ->
  isRecording s = false ->
  getContext2d h = true ->
  let s1 := startRecording h cfg s in
  isRecording s1 = true /\
  isRecording (tick sin now s1) = false /\
  scheduled (tick sin now s1) = None /\
  option_map state (mediaRecorderRef (tick sin now s1)) = Some inactive.
Proof.
  intros Hc Hr Hg. unfold startRecording. rewrite Hc, Hr, Hg. cbn [negb].
  cbv zeta. split; [reflexivity|].
  unfold animate, requestAnimationFrame, tick.
  cbn [scheduled set_rafRef set_scheduled].
  unfold step. cbn [seenRecording]. rewrite andb_false_r.
  cbn. repeat split.
Qed.

Lemma first_frame_ends_recording_witness :
  let s1 := startRecording webm_host defaults mounted in
  isRecording s1 = true /\
  isRecording (tick sin3 16 s1) = false /\
  scheduled (tick sin3 16 s1) = None /\
  option_map state (mediaRecorderRef (tick sin3 16 s1)) = Some inactive.
Proof.
  apply (first_frame_ends_recording sin3 webm_host defaults mounted 16);
    reflexivity.
Defined.

(* ------------------------------------------------------------------ *)
(** ** More on the scene renderer *)

Module SceneFacts.

Import Scene CanvasFacts RendererFacts.

Lemma anchors_app l1 l2 : anchors (l1 ++ l2) = anchors l1 ++ anchors l2.
Proof. apply flat_map_app. Qed.

(** Commands that draw no string place no text. *)
Lemma anchors_of_no_text l : texts l = [] -> anchors l = [].
Proof.
  induction l as [|x r IH]; [reflexivity|].
  destruct x; cbn; try exact IH. discriminate.
Qed.

(** A loop whose every iteration keeps to [P] keeps to [P]. *)
Lemma for_all (P : Cmd -> Prop) (body : nat -> M unit) :
  (forall i, exists l, writes (body i) tt l /\ Forall P l) ->
  forall n lo, exists l, writes (for_ n lo body) tt l /\ Forall P l.
Proof.
  intros Hbody. induction n as [|n IH]; intros lo; cbn [for_].
  - exists []. split; [apply writes_ret | constructor].
  - destruct (Hbody lo) as (l1 & W1 & P1).
    destruct (IH (S lo)) as (l2 & W2 & P2).
    exists (l1 ++ l2). split.
    + eapply writes_bind; eassumption.
    + apply Forall_app. now split.
Qed.

Section WithSin.

Variable sin : Q -> Q.

(** The Waves branch: a radial gradient of fixed geometry whose stops are
    driven by two waves of the time. *)
Lemma waves_cmds w h t :
  let p := fun v : Q => sin (t * 0.0005 + v) * 0.5 + 0.5 in
  let s0 := Rgba 20 (80 + 100 * p 0) 255 0.8 in
  let s1 := Rgba 5 10 (60 + 120 * p 1.3) 1 in
  writes (waves sin w h t) tt
    [ CreateRadialGradient (w * 0.2) (h * 0.2) 50 (w * 0.5) (h * 0.6)
        (JS.max w h);
      AddColorStop 0 s0;
      AddColorStop 1 s1;
      SetFillStyle
        (Grad {| geometry := Radial (w * 0.2) (h * 0.2) 50 (w * 0.5)
                               (h * 0.6) (JS.max w h);
                 stops := [(0, s0); (1, s1)] |});
      FillRect 0 0 w h ].
Proof.
  intros p s0 s1. unfold waves.
  eapply writes_eq; [ follow | reflexivity ].
Qed.

Lemma particle_cmds w h t i :
  let s := inject_Z (Z.of_nat i) * 13.37 + t * 0.12 in
  writes (particle sin w h t i) tt
    [ SetFillStyle
        (Solid (Hsla (JS.floor (200 + 55 * rnd sin (s + 7))) 80 65 0.8));
      BeginPath;
      Arc (JS.rem (rnd sin s * w) w) (JS.rem (rnd sin (s + 42) * h) h)
          (0.5 + rnd sin (s + 99) * 2.5) 0 (JS.PI * 2);
      Fill ].
Proof.
  intros s. unfold particle.
  eapply writes_eq; [ follow | reflexivity ].
Qed.

(** The background, split at its full-surface fill: nothing is painted
    before it. *)
Lemma background_fill_first e t :
  exists pre post,
    writes (background sin e t) tt
      (pre ++ FillRect 0 0 (width e) (height e) :: post) /\
    Forall (fun x => is_paint x = false) pre.
Proof.
  unfold background.
  destruct (JS.str_eqb (bgStyle e) (JS.lit "Aurora")).
  - eexists [_; _; _; _], []. split.
    + apply aurora_writes.
    + repeat constructor.
  - destruct (JS.str_eqb (bgStyle e) (JS.lit "Particles")).
    + destruct (particle_loop_writes sin (width e) (height e) t 300 0%nat)
        as (l & W & _).
      exists [SetFillStyle (Solid (Css (JS.lit "#030614")))], l. split.
      * unfold particles.
        eapply writes_eq;
          [ eapply writes_bind; [ follow |];
            eapply writes_bind; [ follow | exact W ] | reflexivity ].
      * repeat constructor.
    + eexists [_; _; _; _], []. split.
      * apply waves_cmds.
      * repeat constructor.
Qed.

(** The overlay ends with the border. *)
Lemma overlay_border_last e t :
  exists front,
    writes (overlay sin e t) tt
      (front ++ [StrokeRect 12 12 (width e - 24) (height e - 24)]).
Proof.
  unfold overlay.
  destruct (JS.truthy (JS.trim (subtitle e))); cbn [when].
  - eexists [_; _; _; _; _; _; _; _; _; _; _; _; _].
    eapply writes_eq; [ follow | reflexivity ].
  - eexists [_; _; _; _; _; _; _; _; _].
    eapply writes_eq; [ follow | reflexivity ].
Qed.

(** Where the overlay puts its strings. *)
Lemma overlay_anchors e t :
  let wobble := sin (t * 0.003) * 6 in
  exists l, writes (overlay sin e t) tt l /\
    anchors l =
      (width e / 2, height e / 2 + wobble)
      :: (if JS.blank (subtitle e) then []
          else [(width e / 2, height e / 2 + 40 + wobble * 0.5)]).
Proof.
  intros wobble. unfold overlay.
  rewrite JSFacts.truthy_trim.
  destruct (JS.blank (subtitle e)); cbn [negb when];
    eexists; (split; [ follow | reflexivity ]).
Qed.

(** The drawing state the overlay leaves, whatever state it found. *)
Lemma overlay_state e t c :
  let c' := snd (overlay sin e t c) in
  let drawn := negb (JS.blank (subtitle e)) in
  textAlign c' = JS.lit "center" /\
  shadowColor c' = Css (JS.lit "rgba(0,0,0,0.5)") /\
  shadowBlur c' = 0 /\
  lineWidth c' = 2 /\
  strokeStyle c' = Solid (Css (JS.lit "rgba(255,255,255,0.12)")) /\
  fillStyle c' =
    Solid (Css (JS.lit (if drawn then "#cfe3ff" else "#ffffff"))) /\
  font c' =
    {| px := JS.floor (JS.min (width e) (height e)
                       * (if drawn then 0.03 else 0.07));
       family := sans |}.
Proof.
  intros c' drawn. subst c' drawn. unfold overlay.
  rewrite JSFacts.truthy_trim.
  destruct (JS.blank (subtitle e)); cbn [negb when]; repeat split.
Qed.

(** Every colour of the background is one CSS accepts. *)
Lemma background_colors e t :
  bounded sin ->
  exists l, writes (background sin e t) tt l /\ Forall valid_cmd l.
Proof.
  intros Hsin.
  assert (Hw : forall x, 0 <= sin x * 0.5 + 0.5 /\ sin x * 0.5 + 0.5 <= 1).
  { intros x. destruct (Hsin x). split; lra. }
  unfold background.
  destruct (JS.str_eqb (bgStyle e) (JS.lit "Aurora")).
  - eexists. split; [apply aurora_writes|].
    destruct (Hw (t * 0.0006)) as [Ha0 Ha1].
    destruct (Hw (t * 0.0009 + 1.2)) as [Hb0 Hb1].
    set (a := sin (t * 0.0006) * 0.5 + 0.5) in *.
    set (b := sin (t * 0.0009 + 1.2) * 0.5 + 0.5) in *.
    assert (Hr : 40 <= JS.floor (40 + 80 * a) /\ JS.floor (40 + 80 * a) <= 120)
      by (apply (JSFacts.floor_between 40 120); unfold inject_Z; lra).
    assert (Hg : 40 <= JS.floor (40 + 140 * b) /\ JS.floor (40 + 140 * b) <= 180)
      by (apply (JSFacts.floor_between 40 180); unfold inject_Z; lra).
    destruct Hr, Hg.
    repeat constructor; cbn; try lra; discriminate.
  - destruct (JS.str_eqb (bgStyle e) (JS.lit "Particles")).
    + destruct (for_all valid_cmd (particle sin (width e) (height e) t))
        with (n := 300%nat) (lo := 0%nat) as (l & W & P).
      { intros i. eexists. split; [apply particle_cmds|]. cbv zeta.
        set (s := inject_Z (Z.of_nat i) * 13.37 + t * 0.12).
        assert (Hq : 0 <= rnd sin (s + 7) /\ rnd sin (s + 7) <= 1)
          by (unfold rnd; apply JSFacts.abs_unit, Hsin).
        destruct Hq.
        assert (Hh : 200 <= JS.floor (200 + 55 * rnd sin (s + 7)) /\
                     JS.floor (200 + 55 * rnd sin (s + 7)) <= 255)
          by (apply (JSFacts.floor_between 200 255); unfold inject_Z; lra).
        destruct Hh.
        repeat constructor; cbn; try lra; discriminate. }
      eexists. split.
      * unfold particles.
        eapply writes_bind; [ follow |].
        eapply writes_bind; [ follow | exact W ].
      * cbn [app]. repeat constructor. exact P.
    + eexists. split; [apply waves_cmds|].
      destruct (Hw (t * 0.0005 + 0)) as [Hp0 Hp1].
      destruct (Hw (t * 0.0005 + 1.3)) as [Hq0 Hq1].
      repeat constructor; cbn; try lra; discriminate.
Qed.

Lemma overlay_colors e t :
  exists l, writes (overlay sin e t) tt l /\ Forall valid_cmd l.
Proof.
  unfold overlay.
  destruct (JS.truthy (JS.trim (subtitle e))); cbn [when];
    eexists; (split; [ follow | repeat constructor ]).
Qed.

End WithSin.

End SceneFacts.

(* ------------------------------------------------------------------ *)
(** ** Scene renderer: further statements *)

Import Scene.

(** Every colour a frame hands to the context is one CSS accepts: the
    computed red, green and blue channels stay within 0..255 and the
    particle hue within 200..255, for every time, scene and background. *)
Theorem frame_colors_are_valid
    (sin : Q -> Q) (e : Env) (t : Q) (c : Ctx) :
  bounded sin ->
  Forall valid_cmd (issued (drawFrame sin e t) c).
Proof.
  intros Hsin.
  destruct (SceneFacts.background_colors sin e t Hsin) as (l1 & W1 & P1).
  destruct (SceneFacts.overlay_colors sin e t) as (l2 & W2 & P2).
  assert (W : writes (drawFrame sin e t) tt (l1 ++ l2)).
  { unfold drawFrame. eapply CanvasFacts.writes_bind; eassumption. }
  rewrite (CanvasFacts.writes_issued _ _ _ W c).
  apply Forall_app. now split.
Qed.

Lemma frame_colors_are_valid_witness :
  let e := {| bgStyle := JS.lit "Particles"; width := 1080; height := 1080;
              prompt := JS.lit "Hi"; subtitle := JS.lit "there" |} in
  Forall valid_cmd (issued (drawFrame sin3 e 400) fresh).
Proof.
  intros e. apply (frame_colors_are_valid sin3 e 400 fresh sin3_bounded).
Defined.

(** Whatever the background style, the first thing a frame paints is a
    rectangle filled over the whole surface, so nothing of the previous
    frame shows through; and the last thing it does is stroke the border,
    inset by 12 on every side. *)
Theorem frame_repaints_surface_and_ends_with_border
    (sin : Q -> Q) (e : Env) (t : Q) (c : Ctx) :
  exists pre mid,
    issued (drawFrame sin e t) c =
      pre ++ FillRect 0 0 (width e) (height e)
          :: mid ++ [StrokeRect 12 12 (width e - 24) (height e - 24)] /\
    Forall (fun x => is_paint x = false) pre.
Proof.
  destruct (SceneFacts.background_fill_first sin e t)
    as (pre & post & W1 & Hpre).
  destruct (SceneFacts.overlay_border_last sin e t) as (front & W2).
  exists pre, (post ++ front). split; [| exact Hpre].
  apply CanvasFacts.writes_issued with (a := tt).
  eapply CanvasFacts.writes_eq.
  - unfold drawFrame. eapply CanvasFacts.writes_bind; [exact W1 | exact W2].
  - rewrite <- !app_assoc. reflexivity.
Qed.

(** Text layout.  The title is anchored at the horizontal centre, within
    6 px of the vertical centre; the subtitle, when drawn, is anchored at
    the same abscissa, between 37 and 43 px below the title. *)
Theorem text_is_centred_and_subtitle_below_title
    (sin : Q -> Q) (e : Env) (t : Q) (c : Ctx) :
  bounded sin ->
  let wobble := sin (t * 0.003) * 6 in
  let title_y := height e / 2 + wobble in
  let sub_y := height e / 2 + 40 + wobble * 0.5 in
  anchors (issued (drawFrame sin e t) c) =
    (width e / 2, title_y)
    :: (if JS.blank (subtitle e) then [] else [(width e / 2, sub_y)]) /\
  (height e / 2 - 6 <= title_y /\ title_y <= height e / 2 + 6) /\
  (37 <= sub_y - title_y /\ sub_y - title_y <= 43).
Proof.
  intros Hsin wobble title_y sub_y.
  split.
  - destruct (RendererFacts.background_writes sin e t) as (l1 & W1 & T1).
    destruct (SceneFacts.overlay_anchors sin e t) as (l2 & W2 & A2).
    assert (W : writes (drawFrame sin e t) tt (l1 ++ l2)).
    { unfold drawFrame. eapply CanvasFacts.writes_bind; eassumption. }
    rewrite (CanvasFacts.writes_issued _ _ _ W c).
    rewrite SceneFacts.anchors_app, (SceneFacts.anchors_of_no_text _ T1).
    exact A2.
  - destruct (Hsin (t * 0.003)) as [Hlo Hhi].
    subst title_y sub_y wobble.
    set (h := height e / 2). clearbody h.
    set (x := sin (t * 0.003)) in *. clearbody x.
    repeat split; lra.
Qed.

Lemma text_is_centred_and_subtitle_below_title_witness :
  let wobble := sin3 (250 * 0.003) * 6 in
  let title_y := height (env defaults) / 2 + wobble in
  let sub_y := height (env defaults) / 2 + 40 + wobble * 0.5 in
  anchors (issued (drawFrame sin3 (env defaults) 250) fresh) =
    (width (env defaults) / 2, title_y)
    :: (if JS.blank (subtitle (env defaults)) then []
        else [(width (env defaults) / 2, sub_y)]) /\
  (height (env defaults) / 2 - 6 <= title_y /\
   title_y <= height (env defaults) / 2 + 6) /\
  (37 <= sub_y - title_y /\ sub_y - title_y <= 43).
Proof.
  apply (text_is_centred_and_subtitle_below_title sin3 (env defaults) 250
           fresh sin3_bounded).
Defined.

(** A frame leaves the context in a drawing state fixed by the scene
    alone, whatever state it found: text centred, shadow blur 0, line
    width 2, the border's stroke colour, and the fill colour and font of
    the last string drawn (the subtitle's when it is drawn, the title's
    otherwise). *)
Theorem frame_leaves_fixed_drawing_state
    (sin : Q -> Q) (e : Env) (t : Q) (c : Ctx) :
  let c' := snd (drawFrame sin e t c) in
  let drawn := negb (JS.blank (subtitle e)) in
  textAlign c' = JS.lit "center" /\
  shadowColor c' = Css (JS.lit "rgba(0,0,0,0.5)") /\
  shadowBlur c' = 0 /\
  lineWidth c' = 2 /\
  strokeStyle c' = Solid (Css (JS.lit "rgba(255,255,255,0.12)")) /\
  fillStyle c' =
    Solid (Css (JS.lit (if drawn then "#cfe3ff" else "#ffffff"))) /\
  font c' =
    {| px := JS.floor (JS.min (width e) (height e)
                       * (if drawn then 0.03 else 0.07));
       family := sans |}.
Proof.
  intros c' drawn. subst c'. unfold drawFrame, bind.
  destruct (background sin e t c) as [u c1].
  apply (SceneFacts.overlay_state sin e t c1).
Qed.

(** Any background style other than "Aurora" and "Particles" renders the
    Waves scene: a radial gradient whose geometry depends on the surface
    only, not on the time, and whose stops vary with two waves of
    frequency 0.0005: the green channel of stop 0 within 80..180 and the
    blue channel of stop 1 within 60..180. *)
Theorem other_styles_render_waves
    (sin : Q -> Q) (e : Env) (t : Q) (c : Ctx) :
  bounded sin ->
  JS.str_eqb (bgStyle e) (JS.lit "Aurora") = false ->
  JS.str_eqb (bgStyle e) (JS.lit "Particles") = false ->
  let p := fun v : Q => sin (t * 0.0005 + v) * 0.5 + 0.5 in
  let s0 := Rgba 20 (80 + 100 * p 0) 255 0.8 in
  let s1 := Rgba 5 10 (60 + 120 * p 1.3) 1 in
  let geo := Radial (width e * 0.2) (height e * 0.2) 50
               (width e * 0.5) (height e * 0.6)
               (JS.max (width e) (height e)) in
  (exists rest,
     issued (drawFrame sin e t) c =
       [ CreateRadialGradient (width e * 0.2) (height e * 0.2) 50
           (width e * 0.5) (height e * 0.6) (JS.max (width e) (height e));
         AddColorStop 0 s0;
         AddColorStop 1 s1;
         SetFillStyle (Grad {| geometry := geo; stops := [(0, s0); (1, s1)] |});
         FillRect 0 0 (width e) (height e) ] ++ rest) /\
  (80 <= 80 + 100 * p 0 /\ 80 + 100 * p 0 <= 180) /\
  (60 <= 60 + 120 * p 1.3 /\ 60 + 120 * p 1.3 <= 180).
Proof.
  intros Hsin HA HP p s0 s1 geo. subst s0 s1 geo.
  split.
  - destruct (RendererFacts.overlay_writes sin e t) as (rest & W & _).
    exists rest. apply CanvasFacts.writes_issued with (a := tt).
    unfold drawFrame. eapply CanvasFacts.writes_bind; [| exact W].
    unfold background. rewrite HA, HP.
    apply SceneFacts.waves_cmds.
  - subst p. cbv beta.
    destruct (Hsin (t * 0.0005 + 0)). destruct (Hsin (t * 0.0005 + 1.3)).
    repeat split; lra.
Qed.

Lemma other_styles_render_waves_witness :
  let e := {| bgStyle := JS.lit "Waves"; width := 1280; height := 720;
              prompt := JS.lit "Hello"; subtitle := [] |} in
  let p := fun v : Q => sin3 (0 * 0.0005 + v) * 0.5 + 0.5 in
  let s0 := Rgba 20 (80 + 100 * p 0) 255 0.8 in
  let s1 := Rgba 5 10 (60 + 120 * p 1.3) 1 in
  let geo := Radial (1280 * 0.2) (720 * 0.2) 50 (1280 * 0.5) (720 * 0.6)
               (JS.max 1280 720) in
  (exists rest,
     issued (drawFrame sin3 e 0) fresh =
       [ CreateRadialGradient (1280 * 0.2) (720 * 0.2) 50
           (1280 * 0.5) (720 * 0.6) (JS.max 1280 720);
         AddColorStop 0 s0;
         AddColorStop 1 s1;
         SetFillStyle (Grad {| geometry := geo; stops := [(0, s0); (1, s1)] |});
         FillRect 0 0 1280 720 ] ++ rest) /\
  (80 <= 80 + 100 * p 0 /\ 80 + 100 * p 0 <= 180) /\
  (60 <= 60 + 120 * p 1.3 /\ 60 + 120 * p 1.3 <= 180).
Proof.
  intros e.
  apply (other_styles_render_waves sin3 e 0 fresh sin3_bounded
           eq_refl eq_refl).
Defined.

(* ------------------------------------------------------------------ *)
(** ** The component over its lifetime: what every state satisfies *)

Module LifecycleFacts.

Import Lifecycle SessionFacts.

Local Open Scope nat_scope.
Local Open Scope Q_scope.

(** Unfolds the callbacks down to record updates. *)
Ltac open_callbacks :=
  unfold cleanup, handle, startRecording, stopRecording, tick, step,
    ondataavailable, onstop, animate, requestAnimationFrame, cancelPending,
    cancelAnimationFrame, stopRecorder, createObjectURL, revokeObjectURL
    in *.

Lemma filter_live u l :
  List.map fst (filter (fun e : Url * Blob => negb (Nat.eqb (fst e) u)) l)
  = filter (fun x => negb (Nat.eqb x u)) (List.map fst l).
Proof.
  induction l as [|[x b] r IH]; cbn; [reflexivity|].
  destruct (Nat.eqb x u); cbn; now rewrite IH.
Qed.

Lemma live_revoke u s : live (revokeObjectURL u s) = filter (fun x => negb (Nat.eqb x u)) (live s).
Proof. unfold live, revokeObjectURL. cbn [urls set_urls]. apply filter_live. Qed.

Lemma NoDup_filter {A} (p : A -> bool) l : NoDup l -> NoDup (filter p l).
Proof.
  induction 1 as [|x l Hx Hl IH]; cbn; [constructor|].
  destruct (p x); [constructor|]; auto.
  rewrite filter_In. tauto.
Qed.

Lemma filter_twice {A} (p : A -> bool) l :
  filter p (filter p l) = filter p l.
Proof.
  induction l as [|x r IH]; cbn; [reflexivity|].
  destruct (p x) eqn:E; cbn; rewrite ?E, IH; reflexivity.
Qed.

Lemma Forall_filter {A} (P : A -> Prop) (p : A -> bool) l :
  Forall P l -> Forall P (filter p l).
Proof.
  rewrite !Forall_forall. intros H x Hx. apply filter_In in Hx. apply H, Hx.
Qed.

(** *** The effect cleanup *)

Lemma cleanup_scheduled prev s : loop_ok s -> scheduled (cleanup prev s) = None.
Proof.
  unfold loop_ok.
  destruct s as [cv vr mrr ch raf st ir pr bu bs us mi sch fr cx].
  cbn. intros L. open_callbacks.
  destruct sch as [[id' cl]|].
  - destruct L as (-> & Hid & _). apply Nat.eqb_neq in Hid.
    destruct mrr as [[sf op mt [|] tsl]|]; destruct prev as [u|];
      repeat (cbn -[Nat.eqb filter]; rewrite ?Hid, ?Nat.eqb_refl);
      reflexivity.
  - destruct mrr as [[sf op mt [|] tsl]|]; destruct prev as [u|];
      destruct raf as [id|]; try destruct (Nat.eqb id 0) eqn:E0;
      repeat (cbn -[Nat.eqb filter]; rewrite ?E0); reflexivity.
Qed.

Lemma cleanup_fields prev s :
  encoder_idle (cleanup prev s) /\
  isRecording (cleanup prev s) = isRecording s /\
  canvasRef (cleanup prev s) = canvasRef s /\
  chunksRef (cleanup prev s) = chunksRef s /\
  blobUrl (cleanup prev s) = blobUrl s /\
  blobSize (cleanup prev s) = blobSize s /\
  minted (cleanup prev s) = minted s /\
  urls (cleanup prev s)
    = match prev with
      | Some u => filter (fun e => negb (Nat.eqb (fst e) u)) (urls s)
      | None => urls s
      end.
Proof.
  unfold encoder_idle.
  destruct s as [cv vr mrr ch raf st ir pr bu bs us mi sch fr cx].
  open_callbacks.
  destruct mrr as [[sf op mt [|] tsl]|]; destruct prev as [u|];
    destruct raf as [id|]; destruct sch as [[id' cl]|];
    try destruct (Nat.eqb id 0) eqn:E0;
    try destruct (Nat.eqb id id') eqn:E1;
    repeat (cbn -[Nat.eqb filter]; rewrite ?E0, ?E1); repeat split.
Qed.

(** Where nothing runs and the URL is already revoked, the cleanup has
    nothing to do. *)
Lemma cleanup_at_rest prev s :
  scheduled s = None -> encoder_idle s ->
  (forall u, prev = Some u ->
     filter (fun e => negb (Nat.eqb (fst e) u)) (urls s) = urls s) ->
  cleanup prev s = s.
Proof.
  destruct s as [cv vr mrr ch raf st ir pr bu bs us mi sch fr cx].
  unfold encoder_idle. cbn. intros -> Hidle Hurls.
  unfold cleanup, cancelPending, cancelAnimationFrame, stopRecorder,
    revokeObjectURL.
  destruct mrr as [[sf op mt [|] tsl]|]; try discriminate;
    destruct raf as [id|]; try destruct (Nat.eqb id 0) eqn:E0;
    destruct prev as [u|];
    repeat (cbn -[filter Nat.eqb]; rewrite ?E0, ?(Hurls _ eq_refl));
    reflexivity.
Qed.

Lemma loop_ok_cleanup prev s : loop_ok s -> loop_ok (cleanup prev s).
Proof.
  intros L. unfold loop_ok at 1. now rewrite (cleanup_scheduled prev s L).
Qed.

Lemma encoder_ok_cleanup prev s : encoder_ok (cleanup prev s).
Proof. intros _. apply cleanup_fields. Qed.

Lemma urls_ok_cleanup prev s : urls_ok s -> urls_ok (cleanup prev s).
Proof.
  intros [Hd Hb]. unfold urls_ok, live.
  destruct (cleanup_fields prev s) as (_ & _ & _ & _ & _ & _ & -> & ->).
  destruct prev as [u|]; [| now split].
  rewrite filter_live. split; [now apply NoDup_filter | now apply Forall_filter].
Qed.

Lemma artifact_ok_cleanup prev s :
  same_url prev (blobUrl s) = false ->
  artifact_ok s -> artifact_ok (cleanup prev s).
Proof.
  unfold artifact_ok. intros Hne H.
  destruct (cleanup_fields prev s) as (_ & _ & _ & _ & -> & -> & _ & ->).
  destruct (blobUrl s) as [u'|]; [| exact H].
  destruct H as (b & Hin & Hsz). exists b. split; [| exact Hsz].
  destruct prev as [u|]; [| exact Hin].
  apply filter_In. split; [exact Hin|]. cbn in *. now rewrite Nat.eqb_sym, Hne.
Qed.


Section WithSin.

Variable sin : Q -> Q.

Lemma loop_ok_handle e s : loop_ok s -> loop_ok (handle sin e s).
Proof.
  intros H.
  assert (HR : forall prev, loop_ok (handle sin (Rerender prev) s)).
  { intros prev. cbn [handle].
    destruct (same_url prev (blobUrl s)) eqn:Hsame; [exact H | now apply loop_ok_cleanup]. }
  destruct e as [h cfg| |now|d|mr|prev]; [| | | | | apply HR]; clear HR;
    unfold loop_ok in *.
  - (* Start *)
    open_callbacks.
    destruct (canvasRef s); cbn [negb]; [| exact H].
    assert (Hcase : isRecording s = true \/
                    (isRecording s = false /\ scheduled s = None)).
    { destruct (isRecording s); [now left | right; split; [reflexivity|]].
      destruct (scheduled s) as [[id cl]|]; [| reflexivity].
      destruct H as (_ & _ & H). discriminate. }
    destruct Hcase as [Hr | [Hr Hs]]; rewrite Hr; [exact H|].
    destruct (getContext2d h); cbn [negb];
      destruct (blobUrl s); cbn; rewrite ?Hs; auto.
  - (* Stop *)
    open_callbacks.
    destruct s as [cv vr mrr ch raf st ir pr bu bs us mi sch fr cx].
    cbn in *.
    destruct sch as [[id' cl]|].
    + destruct H as (-> & Hid & _).
      apply Nat.eqb_neq in Hid.
      destruct mrr as [mr|]; [destruct (state mr)|]; cbn;
        rewrite Hid; cbn; rewrite Nat.eqb_refl; exact I.
    + destruct mrr as [mr|]; [destruct (state mr)|]; cbn;
        destruct raf as [id|]; try destruct (Nat.eqb id 0); exact I.
  - (* Frame *)
    open_callbacks.
    destruct (scheduled s) as [[id cl]|] eqn:Hs; [| now rewrite Hs].
    destruct H as (_ & _ & Hr).
    generalize (snd (Renderer.drawFrame sin (scene cl) now
                       (ctx (setProgress
                               (JS.min (now - startTimeRef (set_scheduled None (frames s) s)) (totalMs cl) / totalMs cl * 100)
                               (set_scheduled None (frames s) s))))).
    intros c'.
    destruct (JS.lt _ _ && seenRecording cl)%bool; cbn.
    + repeat split; [discriminate | exact Hr].
    + destruct (rafRef s) as [r|]; [destruct (Nat.eqb r 0)|]; cbn;
        destruct (mediaRecorderRef s) as [mr|]; try destruct (state mr); cbn; exact I.
  - (* Data *)
    open_callbacks. destruct d as [b|]; [| exact H].
    destruct (0 <? size b)%Z; exact H.
  - (* Stopped *)
    open_callbacks. cbv zeta. cbn.
    destruct (videoRef s); cbn; exact H.
Qed.


(** Hides the rendered context, which none of these facts looks into. *)
Ltac hide_frame :=
  match goal with
  | |- context [snd (Renderer.drawFrame ?a ?b ?c ?d)] =>
      generalize (snd (Renderer.drawFrame a b c d)); intro
  end.

Lemma encoder_ok_handle e s :
  loop_ok s -> encoder_ok s -> encoder_ok (handle sin e s).
Proof.
  intros L H.
  assert (HR : forall prev, encoder_ok (handle sin (Rerender prev) s)).
  { intros prev. cbn [handle].
    destruct (same_url prev (blobUrl s)) eqn:Hsame; [exact H | apply encoder_ok_cleanup]. }
  destruct e as [h cfg| |now|d|mr|prev]; [| | | | | apply HR]; clear HR;
    unfold loop_ok, encoder_ok in *;
    destruct s as [cv vr mrr ch raf st ir pr bu bs us mi sch fr cx];
    open_callbacks; cbn in L, H.
  - cbn. destruct cv; cbn; [| exact H].
    destruct ir; cbn; [exact H|].
    destruct (getContext2d h); destruct bu; cbn; discriminate.
  - cbn. intros _.
    destruct mrr as [mr|]; [destruct (state mr) eqn:E|]; cbn;
      destruct raf as [id|]; try destruct (Nat.eqb id 0); cbn;
      destruct sch as [[id' cl]|]; cbn; try destruct (Nat.eqb _ id'); cbn;
      auto.
  - cbn [scheduled]. destruct sch as [[id cl]|]; [| exact H].
    destruct L as (_ & _ & ->). hide_frame.
    destruct (JS.lt _ _ && seenRecording cl)%bool; cbn; [discriminate|].
    intros _.
    destruct raf as [id'|]; try destruct (Nat.eqb id' 0); cbn;
      destruct mrr as [mr|]; try destruct (state mr) eqn:E; cbn; auto.
  - destruct d as [b|]; [destruct (0 <? size b)%Z|]; exact H.
  - cbn. destruct vr; exact H.
Qed.

Lemma urls_ok_handle e s : urls_ok s -> urls_ok (handle sin e s).
Proof.
  intros H.
  assert (HR : forall prev, urls_ok (handle sin (Rerender prev) s)).
  { intros prev. cbn [handle].
    destruct (same_url prev (blobUrl s)) eqn:Hsame; [exact H | now apply urls_ok_cleanup]. }
  destruct H as [Hd Hb].
  destruct e as [h cfg| |now|d|mr|prev]; [| | | | | apply HR]; clear HR.
  - cbn [handle]. unfold startRecording.
    destruct (negb (canvasRef s)); [now split|].
    destruct (isRecording s); [now split|].
    assert (Hr : urls_ok match blobUrl s with
                         | Some u => revokeObjectURL u s
                         | None => s
                         end).
    { destruct (blobUrl s) as [u|]; [| now split].
      unfold urls_ok. rewrite live_revoke. split.
      - now apply NoDup_filter.
      - now apply Forall_filter. }
    destruct (negb (getContext2d h)); exact Hr.
  - unfold urls_ok, live in *. cbn [handle].
    destruct s as [cv vr mrr ch raf st ir pr bu bs us mi sch fr cx].
    open_callbacks. cbn in *.
    destruct mrr as [mr|]; [destruct (state mr)|]; cbn;
      destruct raf as [id|]; try destruct (Nat.eqb id 0); cbn;
      destruct sch as [[id' cl]|]; cbn; try destruct (Nat.eqb _ id'); cbn;
      now split.
  - unfold urls_ok, live in *. cbn [handle].
    destruct s as [cv vr mrr ch raf st ir pr bu bs us mi sch fr cx].
    open_callbacks. cbn [scheduled] in *.
    destruct sch as [[id cl]|]; [| now split]. hide_frame.
    destruct (JS.lt _ _ && seenRecording cl)%bool; cbn; [now split|].
    destruct raf as [id'|]; try destruct (Nat.eqb id' 0); cbn;
      destruct mrr as [mr|]; try destruct (state mr); cbn; now split.
  - cbn [handle]. unfold ondataavailable.
    destruct d as [b|]; [destruct (0 <? size b)%Z|]; now split.
  - unfold urls_ok, live in *. cbn [handle].
    destruct s as [cv vr mrr ch raf st ir pr bu bs us mi sch fr cx].
    open_callbacks. cbn in *.
    assert (Hfresh : ~ In (S mi) (List.map fst us)).
    { intros Hin. rewrite Forall_forall in Hb. apply Hb in Hin. lia. }
    destruct vr; cbn; rewrite map_app; cbn; split.
    all: try (apply NoDup_app; repeat split;
              [ exact Hd | repeat constructor; intros [] |];
              intros x Hx [<-|[]]; contradiction).
    all: apply Forall_app; split;
         [ eapply Forall_impl; [| exact Hb]; cbn; intros; lia
         | repeat constructor ].
Qed.

Lemma artifact_ok_handle e s : artifact_ok s -> artifact_ok (handle sin e s).
Proof.
  intros H.
  assert (HR : forall prev, artifact_ok (handle sin (Rerender prev) s)).
  { intros prev. cbn [handle].
    destruct (same_url prev (blobUrl s)) eqn:Hsame; [exact H | now apply artifact_ok_cleanup]. }
  destruct e as [h cfg| |now|d|mr|prev]; [| | | | | apply HR]; clear HR;
    unfold artifact_ok in *;
    destruct s as [cv vr mrr ch raf st ir pr bu bs us mi sch fr cx];
    open_callbacks; cbn in H.
  - cbn. destruct cv; cbn; [| exact H].
    destruct ir; cbn; [exact H|].
    destruct (getContext2d h); destruct bu; reflexivity.
  - cbn.
    destruct mrr as [mr|]; [destruct (state mr)|]; cbn;
      destruct raf as [id|]; try destruct (Nat.eqb id 0); cbn;
      destruct sch as [[id' cl]|]; cbn; try destruct (Nat.eqb _ id'); cbn;
      exact H.
  - cbn [scheduled]. destruct sch as [[id cl]|]; [| exact H]. hide_frame.
    destruct (JS.lt _ _ && seenRecording cl)%bool; cbn; [exact H|].
    destruct raf as [id'|]; try destruct (Nat.eqb id' 0); cbn;
      destruct mrr as [mr|]; try destruct (state mr); cbn; exact H.
  - destruct d as [b|]; [destruct (0 <? size b)%Z|]; exact H.
  - cbv zeta. cbn [urls minted set_urls setBlobUrl setBlobSize videoRef].
    destruct vr; cbn [blobUrl blobSize urls set_videoRef setBlobUrl setBlobSize];
      eexists; (split; [apply in_or_app; right; left; reflexivity | reflexivity]).
Qed.

Lemma invariant_handle e s : invariant s -> invariant (handle sin e s).
Proof.
  intros (L & E & U & A). repeat split.
  - now apply loop_ok_handle.
  - now apply encoder_ok_handle.
  - now apply urls_ok_handle.
  - now apply urls_ok_handle.
  - now apply artifact_ok_handle.
Qed.

Lemma invariant_mounted : invariant mounted.
Proof.
  repeat split; cbn; try constructor.
Qed.

Lemma invariant_run evs : forall s, invariant s -> invariant (run sin evs s).
Proof.
  induction evs as [|e r IH]; intros s H; [exact H|].
  cbn [run fold_left]. apply IH, invariant_handle, H.
Qed.

Lemma run_app evs1 evs2 s :
  run sin (evs1 ++ evs2) s = run sin evs2 (run sin evs1 s).
Proof. unfold run. apply fold_left_app. Qed.

(** Nothing unmounts the canvas. *)
Lemma canvasRef_handle e s : canvasRef (handle sin e s) = canvasRef s.
Proof.
  assert (HR : forall prev,
             canvasRef (handle sin (Rerender prev) s) = canvasRef s).
  { intros prev. cbn [handle].
    destruct (same_url prev (blobUrl s)); [reflexivity|].
    apply cleanup_fields. }
  destruct e as [h cfg| |now|d|mr|prev]; [| | | | | apply HR]; clear HR;
    destruct s as [cv vr mrr ch raf st ir pr bu bs us mi sch fr cx];
    open_callbacks.
  - cbn. destruct cv; cbn; [| reflexivity].
    destruct ir; cbn; [reflexivity|].
    destruct (getContext2d h); destruct bu; reflexivity.
  - cbn.
    destruct mrr as [mr|]; [destruct (state mr)|]; cbn;
      destruct raf as [id|]; try destruct (Nat.eqb id 0); cbn;
      destruct sch as [[id' cl]|]; cbn; try destruct (Nat.eqb _ id'); cbn;
      reflexivity.
  - cbn [scheduled]. destruct sch as [[id cl]|]; [| reflexivity]. hide_frame.
    destruct (JS.lt _ _ && seenRecording cl)%bool; cbn; [reflexivity|].
    destruct raf as [id'|]; try destruct (Nat.eqb id' 0); cbn;
      destruct mrr as [mr|]; try destruct (state mr); cbn; reflexivity.
  - destruct d as [b|]; [destruct (0 <? size b)%Z|]; reflexivity.
  - cbn. destruct vr; reflexivity.
Qed.

Lemma canvasRef_run evs : forall s, canvasRef (run sin evs s) = canvasRef s.
Proof.
  induction evs as [|e r IH]; intros s; [reflexivity|].
  cbn [run fold_left]. fold (run sin r (handle sin e s)).
  now rewrite IH, canvasRef_handle.
Qed.

(** With nothing pending a frame does nothing. *)
Lemma tick_idle now s : scheduled s = None -> tick sin now s = s.
Proof. intros H. unfold tick. now rewrite H. Qed.

(** The buffer over events that neither start nor finish a recording. *)
Lemma chunks_handle e s :
  in_recording e = true ->
  chunksRef (handle sin e s) = chunksRef s ++ positive_chunks (data_of [e]).
Proof.
  intros He.
  assert (HR : forall prev,
             chunksRef (handle sin (Rerender prev) s) = chunksRef s ++ []).
  { intros prev. cbn [handle]. rewrite app_nil_r.
    destruct (same_url prev (blobUrl s)); [reflexivity|].
    apply cleanup_fields. }
  destruct e as [h cfg| |now|d|mr|prev]; try discriminate;
    [| | | apply HR]; clear HR;
    destruct s as [cv vr mrr ch raf st ir pr bu bs us mi sch fr cx];
    open_callbacks.
  - cbn.
    destruct mrr as [mr|]; [destruct (state mr)|]; cbn;
      destruct raf as [id|]; try destruct (Nat.eqb id 0); cbn;
      destruct sch as [[id' cl]|]; cbn; try destruct (Nat.eqb _ id'); cbn;
      now rewrite app_nil_r.
  - cbn [scheduled]. destruct sch as [[id cl]|];
      [| cbn; now rewrite app_nil_r]. hide_frame.
    destruct (JS.lt _ _ && seenRecording cl)%bool; cbn;
      [now rewrite app_nil_r|].
    destruct raf as [id'|]; try destruct (Nat.eqb id' 0); cbn;
      destruct mrr as [mr|]; try destruct (state mr); cbn;
      now rewrite app_nil_r.
  - unfold positive_chunks. cbn.
    destruct d as [b|]; cbn; [| now rewrite app_nil_r].
    destruct (0 <? size b)%Z; cbn; [reflexivity | now rewrite app_nil_r].
Qed.

Lemma positive_chunks_app a b :
  positive_chunks (a ++ b) = positive_chunks a ++ positive_chunks b.
Proof. unfold positive_chunks. now rewrite flat_map_app, filter_app. Qed.

Lemma chunks_run evs : forall s,
  forallb in_recording evs = true ->
  chunksRef (run sin evs s) = chunksRef s ++ positive_chunks (data_of evs).
Proof.
  induction evs as [|e r IH]; intros s H.
  - cbn. now rewrite app_nil_r.
  - cbn [forallb] in H. apply andb_true_iff in H. destruct H as [He Hr].
    cbn [run fold_left]. fold (run sin r (handle sin e s)).
    rewrite (IH _ Hr), (chunks_handle e s He), <- app_assoc.
    f_equal. change (e :: r) with ([e] ++ r).
    unfold data_of. rewrite flat_map_app. apply eq_sym, positive_chunks_app.
Qed.


Lemma stopRecording_effect s :
  isRecording (stopRecording s) = false /\ encoder_idle (stopRecording s).
Proof.
  destruct s as [cv vr mrr ch raf st ir pr bu bs us mi sch fr cx].
  unfold encoder_idle. open_callbacks. cbn.
  destruct mrr as [mr|]; [destruct (state mr) eqn:E|]; cbn;
    destruct raf as [id|]; try destruct (Nat.eqb id 0); cbn;
    destruct sch as [[id' cl]|]; cbn; try destruct (Nat.eqb _ id'); cbn;
    auto.
Qed.

(** Where nothing runs, [stopRecording] has nothing to do. *)
Lemma stopRecording_at_rest s :
  isRecording s = false -> scheduled s = None -> encoder_idle s ->
  stopRecording s = s.
Proof.
  destruct s as [cv vr mrr ch raf st ir pr bu bs us mi sch fr cx].
  unfold encoder_idle. cbn. intros -> -> H. open_callbacks. cbn.
  destruct mrr as [mr|]; [cbn in H; rewrite H|]; cbn;
    destruct raf as [id|]; try destruct (Nat.eqb id 0); reflexivity.
Qed.

Lemma find_first (f : JS.jsstring -> bool) pre m post :
  (forall x, In x pre -> f x = false) -> f m = true ->
  find f (pre ++ m :: post) = Some m.
Proof.
  intros Hpre Hm. induction pre as [|x r IH]; cbn.
  - now rewrite Hm.
  - rewrite (Hpre x (or_introl eq_refl)). apply IH.
    intros y Hy. apply Hpre. now right.
Qed.

End WithSin.

End LifecycleFacts.

(* ------------------------------------------------------------------ *)
(** ** The component over its lifetime: the statements *)

Import Lifecycle.

(** Over every sequence of button clicks, animation frames, recorder
    events and re-renders on a mounted component: whenever the session is
    not recording no animation frame is pending and the recorder is not
    running; and a pending frame is always the one [rafRef] names, during
    a recording. *)
Theorem nothing_runs_outside_a_recording (sin : Q -> Q) (evs : list Event) :
  let s := run sin evs mounted in
  (isRecording s = false -> scheduled s = None /\ encoder_idle s) /\
  (forall id cl, scheduled s = Some (id, cl) ->
     rafRef s = Some id /\ isRecording s = true).
Proof.
  intros s.
  destruct (LifecycleFacts.invariant_run sin evs mounted
              LifecycleFacts.invariant_mounted) as (L & E & _).
  fold s in L, E. unfold loop_ok in L. split.
  - intros Hr. split; [| exact (E Hr)].
    destruct (scheduled s) as [[id cl]|]; [| reflexivity].
    destruct L as (_ & _ & L). congruence.
  - intros id cl Hs. rewrite Hs in L. tauto.
Qed.

(** Over every such sequence the displayed artifact is consistent: live
    object URLs are pairwise distinct; a current URL is live and
    [blobSize] is the size of the blob behind it; with no current URL
    [blobSize] is 0. *)
Theorem artifact_matches_its_url (sin : Q -> Q) (evs : list Event) :
  let s := run sin evs mounted in
  NoDup (live s) /\
  match blobUrl s with
  | Some u => In u (live s) /\
              exists b, In (u, b) (urls s) /\ blobSize s = size b
  | None => blobSize s = 0%Z
  end.
Proof.
  intros s.
  destruct (LifecycleFacts.invariant_run sin evs mounted
              LifecycleFacts.invariant_mounted) as (_ & _ & [U _] & A).
  fold s in U, A. unfold artifact_ok in A. split; [exact U|].
  destruct (blobUrl s) as [u|]; [| exact A].
  destruct A as (b & Hin & Hsz). split; [| now exists b].
  unfold live. change u with (fst (u, b)). now apply in_map.
Qed.

(** [stopRecording] is idempotent: a second stop changes nothing. *)
Theorem stopRecording_is_idempotent (s : State) :
  stopRecording (stopRecording s) = stopRecording s.
Proof.
  destruct s as [cv vr mrr ch raf st ir pr bu bs us mi sch fr cx].
  LifecycleFacts.open_callbacks.
  destruct mrr as [[sf op mt [|] tsl]|];
    destruct raf as [id|]; destruct sch as [[id' cl]|];
    try destruct (Nat.eqb id 0) eqn:E0;
    try destruct (Nat.eqb id id') eqn:E1;
    repeat (cbn -[Nat.eqb]; rewrite ?E0, ?E1); reflexivity.
Qed.

(** After [stopRecording], at any point of the component's life, the
    session is not recording, no frame is pending and the recorder is not
    running: an animation frame arriving later renders nothing and
    reports nothing. *)
Theorem stop_halts_the_loop (sin : Q -> Q) (evs : list Event) (now : Q) :
  let s := stopRecording (run sin evs mounted) in
  isRecording s = false /\ scheduled s = None /\ encoder_idle s /\
  tick sin now s = s.
Proof.
  intros s.
  destruct (LifecycleFacts.stopRecording_effect (run sin evs mounted))
    as [Hr He]. fold s in Hr, He.
  assert (L : loop_ok s).
  { destruct (LifecycleFacts.invariant_run sin (evs ++ [Stop]) mounted
                LifecycleFacts.invariant_mounted) as (L & _).
    rewrite LifecycleFacts.run_app in L. exact L. }
  assert (Hs : scheduled s = None).
  { unfold loop_ok in L. destruct (scheduled s) as [[id cl]|]; [| reflexivity].
    destruct L as (_ & _ & L). congruence. }
  repeat split; auto. now apply LifecycleFacts.tick_idle.
Qed.

(** The effect cleanup, run at any point of the component's life with the
    URL its render captured: afterwards no frame is pending, the recorder
    is not running, the captured URL is no longer live while every other
    live URL still is; and running it again changes nothing. *)
Theorem cleanup_releases_everything
    (sin : Q -> Q) (evs : list Event) (captured : option Url) :
  let s0 := run sin evs mounted in
  let s := cleanup captured s0 in
  scheduled s = None /\ encoder_idle s /\
  live s = match captured with
           | Some u => filter (fun x => negb (Nat.eqb x u)) (live s0)
           | None => live s0
           end /\
  cleanup captured s = s.
Proof.
  intros s0 s. subst s.
  destruct (LifecycleFacts.invariant_run sin evs mounted
              LifecycleFacts.invariant_mounted) as (L & _).
  fold s0 in L. clearbody s0.
  destruct (LifecycleFacts.cleanup_fields captured s0)
    as (Hidle & _ & _ & _ & _ & _ & _ & Hurls).
  split; [now apply LifecycleFacts.cleanup_scheduled |].
  split; [exact Hidle |].
  split.
  2:{ apply LifecycleFacts.cleanup_at_rest;
        [now apply LifecycleFacts.cleanup_scheduled | exact Hidle |].
      intros u ->. rewrite Hurls. apply LifecycleFacts.filter_twice. }
  unfold live. rewrite Hurls.
  destruct captured as [u|]; [apply LifecycleFacts.filter_live | reflexivity].
Qed.

(** [onstop], at any point of the component's life, publishes the blob
    under a URL that is not among the live ones, and makes it the current
    artifact.  The blob carries the recorder's MIME type, or "video/webm"
    when the recorder reports none: its type is never empty. *)
Theorem published_url_is_fresh
    (sin : Q -> Q) (evs : list Event) (mr : MediaRecorder) :
  let s := run sin evs mounted in
  exists u b,
    blobUrl (onstop mr s) = Some u /\
    urls (onstop mr s) = urls s ++ [(u, b)] /\
    ~ In u (live s) /\
    JS.truthy (type b) = true /\
    (JS.truthy (mimeType mr) = true -> type b = mimeType mr).
Proof.
  intros s.
  destruct (LifecycleFacts.invariant_run sin evs mounted
              LifecycleFacts.invariant_mounted) as (_ & _ & [_ U] & _).
  fold s in U. clearbody s.
  exists (S (minted s)),
    (new_Blob (chunksRef s) (JS.or_else (mimeType mr) (JS.lit "video/webm"))).
  unfold onstop, createObjectURL. cbv zeta.
  split; [| split; [| split; [| split]]].
  - cbn [videoRef setBlobSize setBlobUrl set_urls].
    destruct (videoRef s); reflexivity.
  - cbn [videoRef setBlobSize setBlobUrl set_urls].
    destruct (videoRef s); reflexivity.
  - intros Hin. rewrite Forall_forall in U. apply U in Hin. lia.
  - cbn [type new_Blob]. unfold JS.or_else.
    destruct (JS.truthy (mimeType mr)) eqn:E; [exact E | reflexivity].
  - intros E. cbn [type new_Blob]. unfold JS.or_else. now rewrite E.
Qed.

(** Starting a recording releases the previous artifact and resets the
    session: the previous URL is revoked (no longer live, every other
    live URL untouched), no artifact is current, [blobSize] and progress
    are 0, the chunk buffer is empty and the start timestamp is the
    current time. *)
Theorem start_releases_previous_artifact
    (h : Host) (cfg : Config) (s : State) :
  canvasRef s = true ->
  isRecording s = false ->
  let s' := startRecording h cfg s in
  blobUrl s' = None /\ blobSize s' = 0%Z /\ chunksRef s' = [] /\
  progress s' = 0 /\ startTimeRef s' = performance_now h /\
  live s' = match blobUrl s with
            | Some u => filter (fun x => negb (Nat.eqb x u)) (live s)
            | None => live s
            end /\
  (forall u, blobUrl s = Some u -> ~ In u (live s')).
Proof.
  intros Hc Hr s'.
  assert (Hl : live s' = match blobUrl s with
                         | Some u => filter (fun x => negb (Nat.eqb x u)) (live s)
                         | None => live s
                         end).
  { subst s'. unfold startRecording. rewrite Hc, Hr. cbn [negb].
    unfold live.
    destruct (getContext2d h), (blobUrl s) as [u|]; cbn;
      rewrite ?LifecycleFacts.filter_live; reflexivity. }
  split; [| split; [| split; [| split; [| split; [| split]]]]];
    try exact Hl.
  1-5: subst s'; unfold startRecording; rewrite Hc, Hr; cbn [negb];
       destruct (getContext2d h); reflexivity.
  intros u Hu. rewrite Hl, Hu. intros Hin.
  apply filter_In in Hin. destruct Hin as [_ Hin].
  now rewrite Nat.eqb_refl in Hin.
Qed.

Lemma start_releases_previous_artifact_witness :
  let s := run sin3 [ Start webm_host defaults; Frame 16;
                      Data (Some (chunk 5));
                      Stopped (new_MediaRecorder 30 None) ] mounted in
  let s' := startRecording webm_host defaults s in
  blobUrl s = Some 1%nat /\ blobSize s = 5%Z /\
  blobUrl s' = None /\ blobSize s' = 0%Z /\ chunksRef s' = [] /\
  progress s' = 0 /\ startTimeRef s' = performance_now webm_host /\
  live s' = match blobUrl s with
            | Some u => filter (fun x => negb (Nat.eqb x u)) (live s)
            | None => live s
            end /\
  (forall u, blobUrl s = Some u -> ~ In u (live s')).
Proof.
  intros s s'. split; [reflexivity | split; [reflexivity |]].
  apply (start_releases_previous_artifact webm_host defaults s);
    reflexivity.
Defined.

(** Codec negotiation: the recorder is built with the first type of the
    preference list that the browser supports, at 6,000,000 bits per
    second. *)
Theorem first_supported_type_is_chosen
    (h : Host) (cfg : Config) (s : State)
    (pre : list JS.jsstring) (m : JS.jsstring) (post : list JS.jsstring) :
  canvasRef s = true ->
  isRecording s = false ->
  mimeTypes = pre ++ m :: post ->
  (forall x, In x pre -> isTypeSupported h x = false) ->
  isTypeSupported h m = true ->
  option_map options (mediaRecorderRef (startRecording h cfg s))
    = Some (Some (m, 6000000)) /\
  option_map mimeType (mediaRecorderRef (startRecording h cfg s)) = Some m.
Proof.
  intros Hc Hr Hsplit Hpre Hm. unfold startRecording.
  rewrite Hc, Hr, Hsplit, (LifecycleFacts.find_first _ _ _ _ Hpre Hm).
  cbn [negb].
  assert (Ht : JS.truthy m = true).
  { destruct m; [| reflexivity].
    assert (Hin : In [] mimeTypes) by (rewrite Hsplit; apply in_elt).
    cbn in Hin. repeat (destruct Hin as [Hin|Hin]; [discriminate|]).
    destruct Hin. }
  destruct (getContext2d h); cbn; rewrite ?Ht; split; reflexivity.
Qed.

Lemma first_supported_type_is_chosen_witness :
  let h := {| isTypeSupported := fun x =>
                (JS.str_eqb x (JS.lit "video/webm;codecs=vp8")
                 || JS.str_eqb x (JS.lit "video/webm"))%bool;
              defaultMimeType := JS.lit "video/webm";
              performance_now := 0; getContext2d := true |} in
  option_map options (mediaRecorderRef (startRecording h defaults mounted))
    = Some (Some (JS.lit "video/webm;codecs=vp8", 6000000)) /\
  option_map mimeType (mediaRecorderRef (startRecording h defaults mounted))
    = Some (JS.lit "video/webm;codecs=vp8").
Proof.
  intros h.
  apply (first_supported_type_is_chosen h defaults mounted
           [JS.lit "video/webm;codecs=vp9"]
           (JS.lit "video/webm;codecs=vp8")
           [JS.lit "video/webm"; JS.lit "video/mp4"]).
  - reflexivity.
  - reflexivity.
  - reflexivity.
  - intros x [<-|[]]. reflexivity.
  - reflexivity.
Defined.

(** When the canvas gives no 2D context, [startRecording] returns after
    it has set [isRecording]: the session shows as recording, but the
    recorder was never started and no frame is scheduled, so animation
    frames do nothing. *)
Theorem start_without_context_stalls
    (sin : Q -> Q) (evs : list Event) (h : Host) (cfg : Config) :
  isRecording (run sin evs mounted) = false ->
  getContext2d h = false ->
  let s' := startRecording h cfg (run sin evs mounted) in
  isRecording s' = true /\
  scheduled s' = None /\
  option_map state (mediaRecorderRef s') = Some inactive /\
  option_map timeslice (mediaRecorderRef s') = Some None /\
  (forall now, tick sin now s' = s').
Proof.
  intros Hr Hg s'.
  pose proof (LifecycleFacts.canvasRef_run sin evs mounted) as Hc.
  destruct (LifecycleFacts.invariant_run sin evs mounted
              LifecycleFacts.invariant_mounted) as (L & _).
  set (s := run sin evs mounted) in *.
  assert (Hs : scheduled s = None).
  { unfold loop_ok in L. destruct (scheduled s) as [[id cl]|]; [| reflexivity].
    destruct L as (_ & _ & L). congruence. }
  assert (Hs' : scheduled s' = None).
  { subst s'. unfold startRecording. rewrite Hc, Hr, Hg. cbn [negb canvasRef mounted].
    destruct (blobUrl s); exact Hs. }
  split; [| split; [exact Hs' | split; [| split]]].
  1-3: subst s'; unfold startRecording; rewrite Hc, Hr, Hg; reflexivity.
  intros now. now apply LifecycleFacts.tick_idle.
Qed.

Lemma start_without_context_stalls_witness :
  let h := {| isTypeSupported := fun _ => true;
              defaultMimeType := JS.lit "video/webm";
              performance_now := 120; getContext2d := false |} in
  let s' := startRecording h defaults (run sin3 [Stop] mounted) in
  isRecording s' = true /\
  scheduled s' = None /\
  option_map state (mediaRecorderRef s') = Some inactive /\
  option_map timeslice (mediaRecorderRef s') = Some None /\
  (forall now, tick sin3 now s' = s').
Proof.
  intros h.
  apply (start_without_context_stalls sin3 [Stop] h defaults); reflexivity.
Defined.

(** The recorder is started with the chunking interval
    [max(1000/fps, 16)]: never below 16 ms, equal to the frame interval
    [1000/fps] up to 62.5 frames per second (so over the whole 10..60 range
    of the form), and 16 ms above that. *)
Theorem recorder_timeslice_is_frame_interval
    (h : Host) (cfg : Config) (s : State) :
  canvasRef s = true ->
  isRecording s = false ->
  getContext2d h = true ->
  0 < fps cfg ->
  exists ts,
    option_map timeslice (mediaRecorderRef (startRecording h cfg s))
      = Some (Some ts) /\
    16 <= ts /\
    (16 * fps cfg <= 1000 -> ts == 1000 / fps cfg) /\
    (1000 <= 16 * fps cfg -> ts == 16).
Proof.
  intros Hc Hr Hg Hfps.
  exists (JS.max (1000 / fps cfg) 16).
  split; [| split; [| split]].
  - unfold startRecording. rewrite Hc, Hr, Hg. reflexivity.
  - apply Q.le_max_r.
  - intros Hlow. apply Q.max_l.
    apply Qle_shift_div_l; [exact Hfps | exact Hlow].
  - intros Hhigh. apply Q.max_r.
    apply Qle_shift_div_r; [exact Hfps | exact Hhigh].
Qed.

Lemma recorder_timeslice_is_frame_interval_witness :
  exists ts,
    option_map timeslice
      (mediaRecorderRef (startRecording webm_host defaults mounted))
      = Some (Some ts) /\
    16 <= ts /\
    (16 * fps defaults <= 1000 -> ts == 1000 / fps defaults) /\
    (1000 <= 16 * fps defaults -> ts == 16).
Proof.
  apply (recorder_timeslice_is_frame_interval webm_host defaults mounted);
    reflexivity.
Defined.

(** A tick renders exactly one frame, at the absolute timestamp of the
    tick (not the elapsed time) and with the scene captured when the
    recording started; it leaves the chunk buffer, the artifact, the live
    URLs and the start timestamp alone. *)
Theorem tick_renders_one_frame_at_now
    (sin : Q -> Q) (id : nat) (cl : Closure) (now : Q) (s : State) :
  scheduled s = Some (id, cl) ->
  log (ctx (tick sin now s))
    = log (ctx s) ++ issued (drawFrame sin (scene cl) now) (ctx s) /\
  chunksRef (tick sin now s) = chunksRef s /\
  blobUrl (tick sin now s) = blobUrl s /\
  blobSize (tick sin now s) = blobSize s /\
  urls (tick sin now s) = urls s /\
  startTimeRef (tick sin now s) = startTimeRef s.
Proof.
  intros Hs.
  destruct (RendererFacts.drawFrame_writes sin (scene cl) now) as (l & W & _).
  rewrite (CanvasFacts.writes_issued _ _ _ W (ctx s)).
  destruct (W (ctx s)) as [_ Hlog]. rewrite <- Hlog. clear W Hlog l.
  destruct s as [cv vr mrr ch raf st ir pr bu bs us mi sch fr cx].
  cbn in Hs. subst sch. LifecycleFacts.open_callbacks.
  cbn [scheduled set_scheduled setProgress ctx startTimeRef].
  generalize (snd (drawFrame sin (scene cl) now cx)). intros c'.
  destruct (JS.lt _ _ && seenRecording cl)%bool; cbn; [repeat split|].
  destruct raf as [id'|]; try destruct (Nat.eqb id' 0); cbn;
    destruct mrr as [[sf op mt [|] tsl]|]; cbn; repeat split.
Qed.

Lemma tick_renders_one_frame_at_now_witness :
  let s := startRecording webm_host defaults mounted in
  log (ctx (tick sin3 7300 s))
    = log (ctx s) ++ issued (drawFrame sin3 (env defaults) 7300) (ctx s) /\
  chunksRef (tick sin3 7300 s) = chunksRef s /\
  blobUrl (tick sin3 7300 s) = blobUrl s /\
  blobSize (tick sin3 7300 s) = blobSize s /\
  urls (tick sin3 7300 s) = urls s /\
  startTimeRef (tick sin3 7300 s) = startTimeRef s.
Proof.
  intros s.
  apply (tick_renders_one_frame_at_now sin3 1%nat
           {| totalMs := 5 * 1000; seenRecording := false;
              scene := env defaults |} 7300 s).
  reflexivity.
Defined.

(** An artifact holds the chunks of its own recording only: from a
    mounted, idle component, a start, then any frames, stop clicks, data
    events and re-renders, then the recorder's stop event, leave
    [blobSize] equal to
    the total size of the positive-size chunks delivered since that
    start, whatever the buffer held before. *)
Theorem artifact_holds_this_recording_only
    (sin : Q -> Q) (h : Host) (cfg : Config) (mr : MediaRecorder)
    (evs : list Event) (s : State) :
  canvasRef s = true ->
  isRecording s = false ->
  forallb in_recording evs = true ->
  blobSize (run sin (Start h cfg :: evs ++ [Stopped mr]) s)
    = total_size (positive_chunks (data_of evs)).
Proof.
  intros Hc Hr Hev.
  change (Start h cfg :: evs ++ [Stopped mr])
    with ([Start h cfg] ++ evs ++ [Stopped mr]).
  rewrite !LifecycleFacts.run_app.
  set (s1 := run sin [Start h cfg] s).
  assert (H1 : chunksRef s1 = []).
  { subst s1. cbn [run fold_left handle]. unfold startRecording.
    rewrite Hc, Hr. cbn [negb]. destruct (getContext2d h); reflexivity. }
  pose proof (LifecycleFacts.chunks_run sin evs s1 Hev) as H2.
  rewrite H1 in H2. cbn [app] in H2.
  set (s2 := run sin evs s1) in *. clearbody s2.
  cbn [run fold_left handle]. unfold onstop, createObjectURL. cbv zeta.
  cbn [videoRef setBlobSize setBlobUrl set_urls chunksRef].
  destruct (videoRef s2); cbn [blobSize set_videoRef setBlobSize];
    rewrite SessionFacts.size_new_Blob, H2; reflexivity.
Qed.

Lemma artifact_holds_this_recording_only_witness :
  let s := deliver [Some (chunk 1000)] mounted in
  blobSize (run sin3 (Start webm_host defaults
                        :: [Frame 16; Data (Some (chunk 3)); Data None;
                            Data (Some (chunk 0)); Stop;
                            Data (Some (chunk 4))]
                        ++ [Stopped (new_MediaRecorder 30 None)]) s)
    = total_size (positive_chunks
        (data_of [Frame 16; Data (Some (chunk 3)); Data None;
                  Data (Some (chunk 0)); Stop; Data (Some (chunk 4))])).
Proof.
  intros s.
  apply (artifact_holds_this_recording_only sin3 webm_host defaults
           (new_MediaRecorder 30 None)
           [Frame 16; Data (Some (chunk 3)); Data None;
            Data (Some (chunk 0)); Stop; Data (Some (chunk 4))] s);
    reflexivity.
Defined.

(** Starting again while an artifact is displayed: [startRecording]
    clears [blobUrl], so the re-render that follows runs the cleanup of the
    effect keyed on it; that cleanup cancels the frame just scheduled and
    stops the recorder just started.  The session is left showing as
    recording with nothing running. *)
Theorem restart_is_cut_short_by_the_cleanup
    (sin : Q -> Q) (h : Host) (cfg : Config) (s : State) (u : Url) :
  canvasRef s = true ->
  isRecording s = false ->
  blobUrl s = Some u ->
  getContext2d h = true ->
  let s1 := startRecording h cfg s in
  let s2 := handle sin (Rerender (Some u)) s1 in
  (option_map fst (scheduled s1) = Some (S (frames s)) /\
   option_map state (mediaRecorderRef s1) = Some recording) /\
  isRecording s2 = true /\
  scheduled s2 = None /\
  option_map state (mediaRecorderRef s2) = Some inactive /\
  (forall now, tick sin now s2 = s2).
Proof.
  intros Hc Hr Hu Hg s1 s2.
  assert (F1 : scheduled s1
               = Some (S (frames s),
                       {| totalMs := duration cfg * 1000;
                          seenRecording := false; scene := env cfg |}) /\
               rafRef s1 = Some (S (frames s)) /\
               option_map state (mediaRecorderRef s1) = Some recording /\
               isRecording s1 = true /\ blobUrl s1 = None).
  { subst s1. unfold startRecording. rewrite Hc, Hr, Hu, Hg.
    repeat split. }
  destruct F1 as (Hsch & Hraf & Hrec & Hrun & Hurl).
  assert (Hs2 : s2 = cleanup (Some u) s1).
  { subst s2. cbn [handle]. now rewrite Hurl. }
  clearbody s1 s2. subst s2.
  assert (L : loop_ok s1).
  { unfold loop_ok. rewrite Hsch. repeat split; [exact Hraf | discriminate | exact Hrun]. }
  pose proof (LifecycleFacts.cleanup_scheduled (Some u) s1 L) as Hnone.
  destruct (LifecycleFacts.cleanup_fields (Some u) s1) as (Hidle & Hir & _).
  split; [| split; [| split; [exact Hnone | split]]].
  - now rewrite Hsch.
  - now rewrite Hir.
  - unfold encoder_idle in Hidle.
    assert (Hsome : mediaRecorderRef (cleanup (Some u) s1) <> None).
    { destruct s1 as [cv vr mrr ch raf st ir pr bu bs us mi sch fr cx].
      cbn in Hrec. destruct mrr as [mr|]; [| discriminate].
      LifecycleFacts.open_callbacks.
      destruct mr as [sf op mt [|] tsl]; destruct raf as [id|];
        destruct sch as [[id' cl]|];
        try destruct (Nat.eqb id 0) eqn:E0;
        try destruct (Nat.eqb id id') eqn:E1;
        repeat (cbn -[Nat.eqb filter]; rewrite ?E0, ?E1); discriminate. }
    destruct (mediaRecorderRef (cleanup (Some u) s1)) as [mr|];
      [cbn; now rewrite Hidle | contradiction].
  - intros now. now apply LifecycleFacts.tick_idle.
Qed.

Lemma restart_is_cut_short_by_the_cleanup_witness :
  let s := run sin3 [ Start webm_host defaults; Frame 16;
                      Data (Some (chunk 5));
                      Stopped (new_MediaRecorder 30 None) ] mounted in
  let s1 := startRecording webm_host defaults s in
  let s2 := handle sin3 (Rerender (Some 1%nat)) s1 in
  (option_map fst (scheduled s1) = Some (S (frames s)) /\
   option_map state (mediaRecorderRef s1) = Some recording) /\
  isRecording s2 = true /\
  scheduled s2 = None /\
  option_map state (mediaRecorderRef s2) = Some inactive /\
  (forall now, tick sin3 now s2 = s2).
Proof.
  intros s.
  apply (restart_is_cut_short_by_the_cleanup sin3 webm_host defaults s 1%nat);
    reflexivity.
Defined.
